(** * BillyCompiler: the scene-planning and transcode pipeline of [BillyCompiler.py]

    A shallow embedding of [get_media_info] and of the [VideoWorker] thread
    ([run], [_cache_video_info], [_plan_scenes], [_create_scene_clip]),
    followed by the properties of the specification that concern them.
    The window that starts the worker ([check_ffmpeg] and the handlers of
    [App]) is embedded as well, with properties of its own.

    External collaborators are made explicit:
    - the [random] module is a tape of raw draws that the primitives
      [randint], [choice] and [sample] consume;
    - [ffprobe] and [ffmpeg] are a [World]: a function from the argument
      list of the spawned process to what the process answers;
    - Qt signals, file-system calls and spawned processes are recorded, in
      program order, in a trace of [Event]s. *)

From Stdlib Require Import ZArith List Lia Ascii String.
From Stdlib Require Import Floats.SpecFloat.
From stdpp Require Import base list strings gmap pretty.

Open Scope Z_scope.

(** ** Python exceptions that the modelled code can raise *)

Inductive Exn :=
| CalledProcessError (returncode : Z)
| JSONDecodeError
| KeyError
| AttributeError
| IndexError
| ValueError
| ZeroDivisionError
| OverflowError.

(** ** A state-and-exception monad

    [Ret a s] is normal completion with value [a] in state [s]; [Raise e s]
    is an exception propagating with the state reached so far (signals
    already emitted and cache entries already written stay). *)

Inductive Res (S A : Type) :=
| Ret (a : A) (s : S)
| Raise (e : Exn) (s : S).
Arguments Ret {S A} a s.
Arguments Raise {S A} e s.

Definition SE (S A : Type) : Type := S -> Res S A.

Definition se_ret {S A} (a : A) : SE S A := fun s => Ret a s.

Definition se_bind {S A B} (m : SE S A) (k : A -> SE S B) : SE S B :=
  fun s => match m s with
           | Ret a s' => k a s'
           | Raise e s' => Raise e s'
           end.

Definition raise {S A} (e : Exn) : SE S A := fun s => Raise e s.

Definition get {S} : SE S S := fun s => Ret s s.

Definition modify {S} (f : S -> S) : SE S unit := fun s => Ret tt (f s).

Declare Scope se_scope.
Delimit Scope se_scope with se.
Notation "x <- m ;; k" := (se_bind m (fun x => k))
  (at level 100, m at next level, right associativity) : se_scope.
Notation "m ;;; k" := (se_bind m (fun _ => k))
  (at level 100, right associativity) : se_scope.
Open Scope se_scope.

(** [for x in l: body x], threading the state and stopping at the first
    exception. *)
Fixpoint for_each {S A} (l : list A) (body : A -> SE S unit) : SE S unit :=
  match l with
  | [] => se_ret tt
  | x :: l' => body x ;;; for_each l' body
  end.

(** [[f() for _ in range(n)]] *)
Fixpoint repeatM {S A} (n : nat) (m : SE S A) : SE S (list A) :=
  match n with
  | O => se_ret []
  | S n' => x <- m ;; xs <- repeatM n' m ;; se_ret (x :: xs)
  end.

(** ** Text helpers: [str], format specs, [str.join], [str.strip] *)

Module Text.

(** [str(i)] of an integer. *)
Definition str_Z (z : Z) : string := pretty z.
Definition str_nat (n : nat) : string := pretty n.

Fixpoint zeros (n : nat) : string :=
  match n with
  | O => EmptyString
  | S n' => String "0"%char (zeros n')
  end.

(** [f"{i:04d}"] for a non-negative [i]: decimal digits, left-padded with
    zeros to a width of at least four. *)
Definition format_04d (i : nat) : string :=
  let s := str_nat i in zeros (4 - String.length s) +:+ s.

(** [sep.join(l)] *)
Fixpoint join (sep : string) (l : list string) : string :=
  match l with
  | [] => EmptyString
  | [x] => x
  | x :: l' => x +:+ sep +:+ join sep l'
  end.

(** [''.join(l)] *)
Definition concat (l : list string) : string := fold_right String.append EmptyString l.

Definition is_space (c : ascii) : bool :=
  let n := nat_of_ascii c in
  ((9 <=? n)%nat && (n <=? 13)%nat) || (28 <=? n)%nat && (n <=? 32)%nat.

Fixpoint lstrip (s : string) : string :=
  match s with
  | String c s' => if is_space c then lstrip s' else s
  | EmptyString => EmptyString
  end.

Fixpoint rstrip (s : string) : string :=
  match s with
  | String c s' =>
      match rstrip s' with
      | EmptyString => if is_space c then EmptyString else String c EmptyString
      | r => String c r
      end
  | EmptyString => EmptyString
  end.

(** [s.strip()] *)
Definition strip (s : string) : string := rstrip (lstrip s).

End Text.

(** ** [os.path] (POSIX flavour) *)

Module PosixPath.

Definition is_sep (c : ascii) : bool := bool_decide (c = "/"%char).

Fixpoint has_sep (p : string) : bool :=
  match p with
  | EmptyString => false
  | String c p' => is_sep c || has_sep p'
  end.

Fixpoint ends_with_sep (p : string) : bool :=
  match p with
  | EmptyString => false
  | String c EmptyString => is_sep c
  | String _ p' => ends_with_sep p'
  end.

Definition starts_with_sep (p : string) : bool :=
  match p with
  | String c _ => is_sep c
  | EmptyString => false
  end.

(** [os.path.join(a, b)] *)
Definition join (a b : string) : string :=
  if starts_with_sep b then b
  else if bool_decide (a = EmptyString) || ends_with_sep a then a +:+ b
  else a +:+ "/" +:+ b.

(** [os.path.basename(p)]: what follows the last separator. *)
Fixpoint basename (p : string) : string :=
  match p with
  | EmptyString => EmptyString
  | String c p' =>
      if has_sep p' then basename p'
      else if is_sep c then p' else p
  end.

End PosixPath.

(** ** The [random] module

    The generator is a tape of raw draws; each primitive consumes the draws
    it needs and maps them into its range, so that every outcome the
    library can produce is the image of some tape. An exhausted tape keeps
    answering [0]. *)

Module Random.

Definition Rng := list nat.

Definition draw : SE Rng nat :=
  fun g => match g with
           | [] => Ret 0%nat []
           | r :: g' => Ret r g'
           end.

(** [random.randint(a, b)]: an integer [N] with [a <= N <= b]. *)
Definition randint (a b : Z) : SE Rng Z :=
  r <- draw ;; se_ret (a + Z.of_nat r mod (b - a + 1)).

(** [random.choice(seq)]: [IndexError] on an empty sequence. *)
Definition choice {A} (seq : list A) : SE Rng A :=
  match seq with
  | [] => raise IndexError
  | x :: _ => r <- draw ;; se_ret (nth (r mod length seq) seq x)
  end.

(** The selection loop of [random.sample]: [k] times, pick a position
    among the elements not chosen yet. *)
Fixpoint sample_go {A} (pool : list A) (k : nat) : SE Rng (list A) :=
  match k with
  | O => se_ret []
  | S k' =>
      r <- draw ;;
      let j := (r mod length pool)%nat in
      match pool !! j with
      | Some x => xs <- sample_go (delete j pool) k' ;; se_ret (x :: xs)
      | None => raise ValueError
      end
  end.

(** [random.sample(population, k)]: [k] elements at pairwise distinct
    positions; [ValueError] when the sample is larger than the
    population. *)
Definition sample {A} (population : list A) (k : nat) : SE Rng (list A) :=
  if (length population <? k)%nat then raise ValueError
  else sample_go population k.

End Random.

(** ** Python floats (IEEE 754 binary64) for the progress percentage *)

Module Float64.

Definition prec : Z := 53.
Definition emax : Z := 1024.

(** [float(z)] for an integer of magnitude below [2^1024]. *)
Definition of_int (z : Z) : spec_float := binary_normalize prec emax z 0 false.

(** [a / b] on integers: the correctly rounded quotient. Both operands
    convert exactly when their magnitude is below [2^53]. *)
Definition truediv (a b : Z) : Exn + spec_float :=
  if b =? 0 then inl ZeroDivisionError
  else inr (SFdiv prec emax (of_int a) (of_int b)).

Definition mul (x y : spec_float) : spec_float := SFmul prec emax x y.

(** [int(x)]: truncation toward zero. *)
Definition to_int (x : spec_float) : Exn + Z :=
  match x with
  | S754_zero _ => inr 0
  | S754_finite s m e =>
      let v := if 0 <=? e then Zpos m * 2 ^ e else Zpos m / 2 ^ (- e) in
      inr (if s then - v else v)
  | S754_infinity _ => inl OverflowError
  | S754_nan => inl ValueError
  end.

End Float64.

(** ** JSON values, as [json.loads] returns them *)

Unset Elimination Schemes.
Inductive Json :=
| JNull
| JBool (b : bool)
| JNumber (z : Z)
| JString (s : string)
| JArray (items : list Json)
| JObject (members : list (string * Json)).
Set Elimination Schemes.

(** [d.get(key)] on the dict built from a JSON object: for a repeated key
    the last member wins; an absent key gives [None]. *)
Definition dict_get (key : string) (members : list (string * Json)) : option Json :=
  snd <$> last (filter (fun kv => fst kv = key) members).

(** [bool(v)], with [None] standing for Python's [None]. *)
Definition truthy (v : option Json) : bool :=
  match v with
  | None | Some JNull => false
  | Some (JBool b) => b
  | Some (JNumber z) => negb (z =? 0)
  | Some (JString s) => negb (bool_decide (s = EmptyString))
  | Some (JArray items) => negb (bool_decide (items = []))
  | Some (JObject members) => negb (bool_decide (members = []))
  end.

(** ** The external processes *)

(** What one [ffprobe] run answers: its exit status and its standard
    output as [json.loads] sees it ([None] when the text is not JSON). *)
Record ProbeReply := { probe_returncode : Z; probe_stdout : option Json }.

(** What one [ffmpeg] run answers: its exit status and the lines it
    prints. *)
Record Completed := { returncode : Z; output : list string }.

Record World := {
  ffprobe : list string -> ProbeReply;
  ffmpeg : list string -> Completed
}.

(** ** Data of the worker *)

(** The value stored per file in [video_info_cache]: [{'has_audio': b}]. *)
Record MediaInfo := { has_audio : bool }.

(** The [settings] dict built by [App.generate_video]. [clip_vol] is a
    float that the code only ever prints, so it is kept as its printed
    text. *)
Record Settings := {
  layout_mix : Z;
  clip_vol : string;
  total_duration : Z;
  scene_duration : Z;
  output_folder : string;
  output_path : string
}.

(** The three values of [scene['type']]. *)
Inductive SceneType := Single | Grid2x2 | Grid3x3.

Definition type_str (t : SceneType) : string :=
  match t with
  | Single => "single"
  | Grid2x2 => "2x2"
  | Grid3x3 => "3x3"
  end.

(** A planned scene is the dict [{'type': t}] and nothing else. *)
Record Scene := { type : SceneType }.

(** The text that [finished] carries. The report of an unexpected error
    embeds a traceback, so it is kept symbolic. *)
Inductive Message :=
| Text (s : string)
| ErrorReport (e : Exn).

(** What the worker does that is visible from outside, in program order. *)
Inductive Event :=
| LogMessage (line : string)                       (* log_message.emit *)
| Progress (percent : Z) (stage : string)          (* progress.emit *)
| Finished (message : Message) (success : bool)    (* finished.emit *)
| MakeDirs (path : string)                         (* os.makedirs *)
| Probe (command : list string) (status : Z)       (* subprocess.run, ffprobe *)
| Render (command : list string) (status : Z)      (* subprocess.run, ffmpeg per scene *)
| WriteFile (path : string) (lines : list string)  (* the manifest *)
| Concat (command : list string) (status : Z)      (* subprocess.Popen, final ffmpeg *)
| RmTree (path : string).                          (* shutil.rmtree *)

(** The mutable state a run works on: the global generator of [random],
    [self.video_info_cache], whether the workspace directory exists, and
    the trace so far. *)
Record St := {
  rng : Random.Rng;
  video_info_cache : gmap string MediaInfo;
  workspace_exists : bool;
  trace : list Event
}.

Definition set_rng (g : Random.Rng) (s : St) : St :=
  {| rng := g; video_info_cache := video_info_cache s;
     workspace_exists := workspace_exists s; trace := trace s |}.

Definition set_cache (c : gmap string MediaInfo) (s : St) : St :=
  {| rng := rng s; video_info_cache := c;
     workspace_exists := workspace_exists s; trace := trace s |}.

Definition set_workspace (b : bool) (s : St) : St :=
  {| rng := rng s; video_info_cache := video_info_cache s;
     workspace_exists := b; trace := trace s |}.

Definition emit_st (e : Event) (s : St) : St :=
  {| rng := rng s; video_info_cache := video_info_cache s;
     workspace_exists := workspace_exists s; trace := trace s ++ [e] |}.

Definition emit (e : Event) : SE St unit := modify (emit_st e).

(** Run a computation of the [random] module on the generator of the
    state. *)
Definition with_random {A} (m : SE Random.Rng A) : SE St A :=
  fun s => match m (rng s) with
           | Ret a g => Ret a (set_rng g s)
           | Raise e g => Raise e (set_rng g s)
           end.

(** Turn a pure result into a step of the worker. *)
Definition lift_exn {A} (r : Exn + A) : SE St A :=
  match r with
  | inl e => raise e
  | inr a => se_ret a
  end.

Definition nl : string := String (ascii_of_nat 10) EmptyString.

(** ** Filter graphs

    The stages that [_create_scene_clip] writes with f-strings, kept as
    data together with the function that prints them. *)

Inductive Size :=
| SizeRes (res : string)      (* printed as given: [1280x720] *)
| SizeWH (w h : Z).           (* printed [w:h] *)

Inductive Stage :=
| ScalePad (input : nat) (size : Size) (out : string)
| HStack (ins : list string) (n : nat) (out : string)
| VStack (ins : list string) (n : nat) (out : string)
| AMix (ins : list nat) (n : nat) (volume : string) (out : string).

Definition label (l : string) : string := "[" +:+ l +:+ "]".

Definition render_size (sz : Size) : string :=
  match sz with
  | SizeRes res => res
  | SizeWH w h => Text.str_Z w +:+ ":" +:+ Text.str_Z h
  end.

Definition render_stage (st : Stage) : string :=
  match st with
  | ScalePad i sz out =>
      label (Text.str_nat i +:+ ":v") +:+ "scale=" +:+ render_size sz
      +:+ ":force_original_aspect_ratio=decrease,pad=" +:+ render_size sz
      +:+ ":-1:-1:color=black,setpts=PTS-STARTPTS" +:+ label out
  | HStack ins n out =>
      Text.concat (map label ins) +:+ "hstack=inputs=" +:+ Text.str_nat n +:+ label out
  | VStack ins n out =>
      Text.concat (map label ins) +:+ "vstack=inputs=" +:+ Text.str_nat n +:+ label out
  | AMix ins n volume out =>
      Text.concat (map (fun i => label (Text.str_nat i +:+ ":a")) ins)
      +:+ "amix=inputs=" +:+ Text.str_nat n +:+ ",volume=" +:+ volume +:+ label out
  end.

(** ** Frame geometry of a filter graph

    What the transcoder documents for the filters used: a scale-and-pad
    chain yields frames of the padded size; [hstack] puts inputs of one
    height side by side, so widths add up; [vstack] piles inputs of one
    width, so heights add up. *)

Module Geometry.

Definition digit (c : ascii) : option Z :=
  let n := nat_of_ascii c in
  if ((48 <=? n) && (n <=? 57))%nat then Some (Z.of_nat n - 48) else None.

Fixpoint parse_digits (s : string) (acc : Z) : option Z :=
  match s with
  | EmptyString => Some acc
  | String c s' =>
      match digit c with
      | Some d => parse_digits s' (10 * acc + d)
      | None => None
      end
  end.

Definition parse_number (s : string) : option Z :=
  match s with
  | EmptyString => None
  | _ => parse_digits s 0
  end.

(** Split at the first [x]. *)
Fixpoint split_x (s : string) : option (string * string) :=
  match s with
  | EmptyString => None
  | String c s' =>
      if bool_decide (c = "x"%char) then Some (EmptyString, s')
      else match split_x s' with
           | Some (a, b) => Some (String c a, b)
           | None => None
           end
  end.

(** A size written [WxH]. *)
Definition parse_res (res : string) : option (Z * Z) :=
  match split_x res with
  | Some (a, b) =>
      match parse_number a, parse_number b with
      | Some w, Some h => Some (w, h)
      | _, _ => None
      end
  | None => None
  end.

Definition size_dims (sz : Size) : option (Z * Z) :=
  match sz with
  | SizeRes res => parse_res res
  | SizeWH w h => Some (w, h)
  end.

(** Frame sizes of the labelled inputs of a stacking stage, when all of
    them are defined. *)
Definition lookup_all (env : gmap string (Z * Z)) (ins : list string) : option (list (Z * Z)) :=
  mapM (fun l => env !! l) ins.

Definition all_equal (l : list Z) : bool :=
  match l with
  | [] => true
  | x :: l' => forallb (Z.eqb x) l'
  end.

Definition sum (l : list Z) : Z := fold_right Z.add 0 l.

(** The frame size a video stage produces, given the sizes of the labels
    defined before it. *)
Definition stage_dims (env : gmap string (Z * Z)) (st : Stage) : option (string * (Z * Z)) :=
  match st with
  | ScalePad _ sz out => pair out <$> size_dims sz
  | HStack ins _ out =>
      match lookup_all env ins with
      | Some ((w, h) :: ds) =>
          if all_equal (h :: map snd ds) then Some (out, (sum (w :: map fst ds), h)) else None
      | _ => None
      end
  | VStack ins _ out =>
      match lookup_all env ins with
      | Some ((w, h) :: ds) =>
          if all_equal (w :: map fst ds) then Some (out, (w, sum (h :: map snd ds))) else None
      | _ => None
      end
  | AMix _ _ _ _ => None
  end.

Fixpoint frame_sizes (env : gmap string (Z * Z)) (stages : list Stage) : gmap string (Z * Z) :=
  match stages with
  | [] => env
  | st :: rest =>
      match stage_dims env st with
      | Some (out, d) => frame_sizes (<[out := d]> env) rest
      | None => frame_sizes env rest
      end
  end.

(** The frame size of the stream labelled [out] of a graph. *)
Definition output_size (stages : list Stage) (out : string) : option (Z * Z) :=
  frame_sizes ∅ stages !! out.

End Geometry.

(** ** [get_media_info] and the [VideoWorker] thread *)

Section Worker.

Variable w : World.

(** [get_media_info(filepath, ffprobe_path)], the [try] block and its
    [except] clause. [subprocess.run(..., check=True)] raises
    [CalledProcessError] on a non-zero status, [json.loads] raises
    [JSONDecodeError], and [info.get] exists on dicts only. *)
Definition probe_command (filepath ffprobe_path : string) : list string :=
  [ffprobe_path; "-v"; "quiet"; "-print_format"; "json"; "-show_streams";
   "-select_streams"; "a"; filepath].

Definition probe_try (reply : ProbeReply) : Exn + MediaInfo :=
  if probe_returncode reply =? 0 then
    match probe_stdout reply with
    | None => inl JSONDecodeError
    | Some (JObject info) => inr {| has_audio := truthy (dict_get "streams" info) |}
    | Some _ => inl AttributeError
    end
  else inl (CalledProcessError (probe_returncode reply)).

Definition probe_except (r : Exn + MediaInfo) : Exn + MediaInfo :=
  match r with
  | inl (CalledProcessError _) | inl JSONDecodeError | inl KeyError =>
      inr {| has_audio := false |}
  | _ => r
  end.

Definition get_media_info (filepath ffprobe_path : string) : SE St MediaInfo :=
  let command := probe_command filepath ffprobe_path in
  let reply := ffprobe w command in
  emit (Probe command (probe_returncode reply)) ;;;
  lift_exn (probe_except (probe_try reply)).

Variable settings : Settings.
Variable video_files : list string.
Variable ffprobe_path : string.

(** [VideoWorker._cache_video_info] *)
Definition _cache_video_info : SE St unit :=
  for_each video_files (fun vid =>
    s <- get ;;
    match video_info_cache s !! vid with
    | Some _ => se_ret tt
    | None =>
        info <- get_media_info vid ffprobe_path ;;
        modify (fun s => set_cache (<[vid := info]> (video_info_cache s)) s)
    end).

(** [VideoWorker._plan_scenes] *)
Definition available_layouts : list SceneType := [Grid2x2; Grid3x3].

Definition plan_scene : SE Random.Rng Scene :=
  r <- Random.randint 1 100 ;;
  if r <=? layout_mix settings then
    t <- Random.choice available_layouts ;; se_ret {| type := t |}
  else se_ret {| type := Single |}.

Definition _plan_scenes : SE Random.Rng (list Scene) :=
  if scene_duration settings <=? 0 then se_ret []
  else
    let num_scenes := total_duration settings / scene_duration settings in
    repeatM (Z.to_nat num_scenes) plan_scene.

(** [VideoWorker._create_scene_clip], piece by piece. *)
Definition target_res : string := "1280x720".

Definition req_vids (t : SceneType) : nat :=
  match t with
  | Grid2x2 => 4
  | Grid3x3 => 9
  | Single => 1
  end.

Definition pick_scene_vids (t : SceneType) : SE Random.Rng (list string) :=
  if (length video_files <? req_vids t)%nat
  then repeatM (req_vids t) (Random.choice video_files)
  else Random.sample video_files (req_vids t).

Definition inputs (scene_vids : list string) : list string :=
  flat_map (fun path => ["-i"; path]) scene_vids.

Definition grid_dim (t : SceneType) : nat :=
  match t with
  | Grid2x2 => 2
  | _ => 3
  end.

Definition tile_w (t : SceneType) : Z := 1280 / Z.of_nat (grid_dim t).
Definition tile_h (t : SceneType) : Z := 720 / Z.of_nat (grid_dim t).

Definition tiles (t : SceneType) : list Stage :=
  map (fun i => ScalePad i (SizeWH (tile_w t) (tile_h t)) ("v" +:+ Text.str_nat i))
      (seq 0 (req_vids t)).

Definition rows (t : SceneType) : list Stage :=
  map (fun r =>
         HStack (map (fun c => "v" +:+ Text.str_nat (r * grid_dim t + c)) (seq 0 (grid_dim t)))
                (grid_dim t) ("row" +:+ Text.str_nat r))
      (seq 0 (grid_dim t)).

Definition column (t : SceneType) : Stage :=
  VStack (map (fun r => "row" +:+ Text.str_nat r) (seq 0 (grid_dim t)))
         (grid_dim t) "vout".

Definition video_filters (t : SceneType) : list Stage :=
  match t with
  | Single => [ScalePad 0 (SizeRes target_res) "vout"]
  | _ => tiles t ++ rows t ++ [column t]
  end.

(** [self.video_info_cache.get(v, {}).get('has_audio')], as a truth
    value. *)
Definition cached_has_audio (cache : gmap string MediaInfo) (v : string) : bool :=
  match cache !! v with
  | Some info => has_audio info
  | None => false
  end.

Definition vids_with_audio (cache : gmap string MediaInfo) (scene_vids : list string) : list nat :=
  map fst (filter (fun iv => cached_has_audio cache (snd iv) = true)
                  (zip (seq 0 (length scene_vids)) scene_vids)).

Definition audio_filters (cache : gmap string MediaInfo) (scene_vids : list string) : list Stage :=
  match vids_with_audio cache scene_vids with
  | [] => []
  | with_audio => [AMix with_audio (length with_audio) (clip_vol settings) "aout"]
  end.

Definition map_audio (cache : gmap string MediaInfo) (scene_vids : list string) : list string :=
  match vids_with_audio cache scene_vids with
  | [] => ["-an"]
  | _ => ["-map"; "[aout]"]
  end.

Definition scene_command (cache : gmap string MediaInfo) (scene : Scene)
    (scene_vids : list string) (output_path : string) : list string :=
  ["ffmpeg"; "-y"] ++ inputs scene_vids
  ++ ["-filter_complex";
      Text.join ";" (map render_stage (video_filters (type scene)
                                       ++ audio_filters cache scene_vids));
      "-map"; "[vout]"]
  ++ map_audio cache scene_vids
  ++ ["-t"; Text.str_Z (scene_duration settings);
      "-c:v"; "libx264"; "-c:a"; "aac"; "-preset"; "medium"; "-pix_fmt"; "yuv420p";
      output_path].

(** The status that [subprocess.run(command, capture_output=True)]
    returns is dropped: the call has no [check=True] and its result is
    not bound. *)
Definition _create_scene_clip (scene : Scene) (output_path : string) : SE St unit :=
  scene_vids <- with_random (pick_scene_vids (type scene)) ;;
  s <- get ;;
  let command := scene_command (video_info_cache s) scene scene_vids output_path in
  let completed := ffmpeg w command in
  emit (Render command (returncode completed)).

(** [VideoWorker.run] *)

(** [int((i / total_scenes) * 100)] *)
Definition progress_percent (i total_scenes : nat) : Exn + Z :=
  match Float64.truediv (Z.of_nat i) (Z.of_nat total_scenes) with
  | inl e => inl e
  | inr q => Float64.to_int (Float64.mul q (Float64.of_int 100))
  end.

Definition stage_text (i total_scenes : nat) (scene : Scene) : string :=
  "Processing Scene " +:+ Text.str_nat (i + 1) +:+ "/" +:+ Text.str_nat total_scenes
  +:+ " (" +:+ type_str (type scene) +:+ ")".

Definition clip_name (i : nat) : string := "clip_" +:+ Text.format_04d i +:+ ".ts".

(** STAGE 1: the loop over [enumerate(scenes)], from index [i] on; the
    result is what the loop appends to [clip_paths]. *)
Fixpoint render_scenes (temp_dir : string) (total_scenes i : nat) (scenes : list Scene)
    : SE St (list string) :=
  match scenes with
  | [] => se_ret []
  | scene :: rest =>
      percent <- lift_exn (progress_percent i total_scenes) ;;
      emit (Progress percent (stage_text i total_scenes scene)) ;;;
      let output_clip_path := PosixPath.join temp_dir (clip_name i) in
      _create_scene_clip scene output_clip_path ;;;
      clip_paths <- render_scenes temp_dir total_scenes (S i) rest ;;
      se_ret (output_clip_path :: clip_paths)
  end.

Definition manifest_line (path : string) : string :=
  "file '" +:+ PosixPath.basename path +:+ "'" +:+ nl.

Definition final_command (concat_list_path : string) : list string :=
  ["ffmpeg"; "-y"; "-f"; "concat"; "-safe"; "0"; "-i"; concat_list_path;
   "-c"; "copy"; output_path settings].

(** STAGE 2: manifest, final transcoder run, verdict. *)
Definition concatenate (temp_dir : string) (clip_paths : list string) : SE St unit :=
  emit (Progress 95 "Concatenating all scenes...") ;;;
  let concat_list_path := PosixPath.join temp_dir "concat_list.txt" in
  emit (WriteFile concat_list_path (map manifest_line clip_paths)) ;;;
  let command := final_command concat_list_path in
  emit (LogMessage (nl +:+ "Final concatenation command: " +:+ Text.join " " command)) ;;;
  let process := ffmpeg w command in
  emit (Concat command (returncode process)) ;;;
  for_each (output process) (fun line => emit (LogMessage (Text.strip line))) ;;;
  if returncode process =? 0 then
    emit (Progress 100 "Done!") ;;;
    emit (Finished (Text "Video generation successful!") true)
  else
    emit (Finished (Text ("Final concatenation failed with exit code "
                          +:+ Text.str_Z (returncode process) +:+ ".")) false).

Definition temp_dir : string := PosixPath.join (output_folder settings) "temp_clips".

(** The body of the [try]. *)
Definition run_try : SE St unit :=
  emit (LogMessage "Preparing for generation...") ;;;
  emit (MakeDirs temp_dir) ;;;
  modify (set_workspace true) ;;;
  emit (LogMessage "Scanning video files for audio information...") ;;;
  _cache_video_info ;;;
  scenes <- with_random _plan_scenes ;;
  match scenes with
  | [] =>
      emit (Finished (Text "Failed to plan any scenes. Check your duration settings.") false)
  | _ =>
      clip_paths <- render_scenes temp_dir (length scenes) 0 scenes ;;
      concatenate temp_dir clip_paths
  end.

(** [try] / [except Exception] / [finally]; the result is the state the
    run leaves behind. *)
Definition run (s0 : St) : St :=
  let s1 := match run_try s0 with
            | Ret _ s => s
            | Raise e s => emit_st (Finished (ErrorReport e) false) s
            end in
  if workspace_exists s1
  then set_workspace false (emit_st (RmTree temp_dir) s1)
  else s1.

End Worker.

(** The state a fresh [VideoWorker] starts from: an empty cache
    ([__init__]), the generator as the tape describes it, nothing emitted
    yet. *)
Definition initial (g : Random.Rng) (workspace : bool) : St :=
  {| rng := g; video_info_cache := ∅; workspace_exists := workspace; trace := [] |}.

(** ** Observations on scenes and traces, used to state the properties *)

Definition is_grid (t : SceneType) : bool :=
  match t with
  | Single => false
  | _ => true
  end.


Definition progress_of (t : list Event) : list (Z * string) :=
  omap (fun e => match e with Progress p text => Some (p, text) | _ => None end) t.

Definition renders_of (t : list Event) : list (list string * Z) :=
  omap (fun e => match e with Render c rc => Some (c, rc) | _ => None end) t.

Definition concats_of (t : list Event) : list (list string * Z) :=
  omap (fun e => match e with Concat c rc => Some (c, rc) | _ => None end) t.

Definition probes_of (t : list Event) : list (list string) :=
  omap (fun e => match e with Probe c _ => Some c | _ => None end) t.

Definition manifests_of (t : list Event) : list (string * list string) :=
  omap (fun e => match e with WriteFile p lines => Some (p, lines) | _ => None end) t.

Definition finished_of (t : list Event) : list (Message * bool) :=
  omap (fun e => match e with Finished m ok => Some (m, ok) | _ => None end) t.

(** The files a transcoder command reads: what follows each [-i]. *)
Fixpoint inputs_of (command : list string) : list string :=
  match command with
  | flag :: rest =>
      if bool_decide (flag = "-i") then
        match rest with
        | path :: rest' => path :: inputs_of rest'
        | [] => []
        end
      else inputs_of rest
  | [] => []
  end.


(** The state an outcome leaves behind, and whether it is a normal one. *)
Definition final {A} (r : Res St A) : St :=
  match r with
  | Ret _ s | Raise _ s => s
  end.

Definition returned {A} (r : Res St A) : bool :=
  match r with
  | Ret _ _ => true
  | Raise _ _ => false
  end.

(** The [Probe] event of one file. *)
Definition probe_event (w : World) (ffprobe_path filepath : string) : Event :=
  Probe (probe_command filepath ffprobe_path)
        (probe_returncode (ffprobe w (probe_command filepath ffprobe_path))).

(** What [get_media_info] answers for one file, as a pure function of the
    world. *)
Definition probe_result (w : World) (ffprobe_path filepath : string) : Exn + MediaInfo :=
  probe_except (probe_try (ffprobe w (probe_command filepath ffprobe_path))).

(** The percentage shown for scene [i] of [n], [0] standing in where the
    Python expression raises. *)
Definition percent (i n : nat) : Z :=
  match progress_percent i n with
  | inr p => p
  | inl _ => 0
  end.

Definition clip_path (temp_dir : string) (i : nat) : string :=
  PosixPath.join temp_dir (clip_name i).

(** The [Render] event of a scene rendered at index [i] with participants
    [scene_vids]. *)
Definition render_event (w : World) (settings : Settings) (cache : gmap string MediaInfo)
    (temp_dir : string) (i : nat) (scene : Scene) (scene_vids : list string) : Event :=
  let command := scene_command settings cache scene scene_vids (clip_path temp_dir i) in
  Render command (returncode (ffmpeg w command)).

(** The events of STAGE 1 from index [i] on, given the participants drawn
    for each scene. *)
Fixpoint scene_events (w : World) (settings : Settings) (cache : gmap string MediaInfo)
    (temp_dir : string) (n i : nat) (scenes : list Scene) (picks : list (list string))
    : list Event :=
  match scenes, picks with
  | scene :: scenes', scene_vids :: picks' =>
      Progress (percent i n) (stage_text i n scene)
      :: render_event w settings cache temp_dir i scene scene_vids
      :: scene_events w settings cache temp_dir n (S i) scenes' picks'
  | _, _ => []
  end.

(** The events of STAGE 2 for a final transcoder run that answers
    [process]. *)
Definition concat_events (settings : Settings) (temp_dir : string) (clip_paths : list string)
    (process : Completed) : list Event :=
  let concat_list_path := PosixPath.join temp_dir "concat_list.txt" in
  let command := final_command settings concat_list_path in
  [Progress 95 "Concatenating all scenes...";
   WriteFile concat_list_path (map manifest_line clip_paths);
   LogMessage (nl +:+ "Final concatenation command: " +:+ Text.join " " command);
   Concat command (returncode process)]
  ++ map (fun line => LogMessage (Text.strip line)) (output process)
  ++ (if returncode process =? 0
      then [Progress 100 "Done!"; Finished (Text "Video generation successful!") true]
      else [Finished (Text ("Final concatenation failed with exit code "
                            +:+ Text.str_Z (returncode process) +:+ ".")) false]).

(** Binary64 values that are zero or finite with mantissa at most [2^D] and
    exponent at most [B]. *)
Definition within (D B : Z) (x : spec_float) : Prop :=
  match x with
  | S754_zero _ => True
  | S754_finite _ m e => Zpos m <= 2 ^ D /\ e <= B
  | _ => False
  end.

(** [s'] differs from [s] only by the generator and by the events [evs]
    added to the trace. *)
Definition emitted (s s' : St) (evs : list Event) : Prop :=
  video_info_cache s' = video_info_cache s /\
  workspace_exists s' = workspace_exists s /\
  trace s' = trace s ++ evs.

(** The events that open every run, and the state they lead to. *)
Definition prelude_events (settings : Settings) : list Event :=
  [LogMessage "Preparing for generation...";
   MakeDirs (temp_dir settings);
   LogMessage "Scanning video files for audio information..."].

Definition prelude (settings : Settings) (s : St) : St :=
  emit_st (LogMessage "Scanning video files for audio information...")
    (set_workspace true
       (emit_st (MakeDirs (temp_dir settings))
          (emit_st (LogMessage "Preparing for generation...") s))).

(** No probe answer has a shape that makes [get_media_info] raise. *)
Definition probes_ok (w : World) (ffprobe_path : string) (video_files : list string) : Prop :=
  forall p, p ∈ video_files -> exists info, probe_result w ffprobe_path p = inr info.

Definition plan_failed : Message :=
  Text "Failed to plan any scenes. Check your duration settings.".


(** The transcoder runs of STAGE 1 from index [i] on: command and status. *)
Fixpoint scene_renders (w : World) (settings : Settings) (cache : gmap string MediaInfo)
    (temp_dir : string) (i : nat) (scenes : list Scene) (picks : list (list string))
    : list (list string * Z) :=
  match scenes, picks with
  | scene :: scenes', scene_vids :: picks' =>
      let command := scene_command settings cache scene scene_vids (clip_path temp_dir i) in
      (command, returncode (ffmpeg w command))
      :: scene_renders w settings cache temp_dir (S i) scenes' picks'
  | _, _ => []
  end.

(** What the final transcoder run answers. *)
Definition concat_process (w : World) (settings : Settings) : Completed :=
  ffmpeg w (final_command settings (PosixPath.join (temp_dir settings) "concat_list.txt")).

(** The participants of each rendered scene, read off the transcoder
    commands of a trace. *)
Definition participants (t : list Event) : list (list string) :=
  map (fun c => inputs_of (fst c)) (renders_of t).

(** ** Sample settings, caches and worlds *)

Definition mix_30 : Settings :=
  {| layout_mix := 30; clip_vol := "1.0"; total_duration := 12; scene_duration := 6;
     output_folder := "/out"; output_path := "/out/compilation.mp4" |}.


Definition quiet_world : World :=
  {| ffprobe := fun _ => {| probe_returncode := 1; probe_stdout := None |};
     ffmpeg := fun _ => {| returncode := 0; output := [] |} |}.

Definition settings_0 : Settings :=
  {| layout_mix := 50; clip_vol := "1.0"; total_duration := 12; scene_duration := 0;
     output_folder := "/out"; output_path := "/out/compilation.mp4" |}.

Definition fine_world : World :=
  {| ffprobe := fun _ => {| probe_returncode := 0; probe_stdout := Some (JObject []) |};
     ffmpeg := fun _ => {| returncode := 0; output := [] |} |}.


Definition settings_1 : Settings :=
  {| layout_mix := 0; clip_vol := "1.0"; total_duration := 6; scene_duration := 6;
     output_folder := "/out"; output_path := "/out/compilation.mp4" |}.

Definition settings_2 : Settings :=
  {| layout_mix := 0; clip_vol := "1.0"; total_duration := 12; scene_duration := 6;
     output_folder := "/out"; output_path := "/out/compilation.mp4" |}.

(** A world whose transcoder fails on the first scene only. *)
Definition first_render_fails : World :=
  {| ffprobe := fun _ => {| probe_returncode := 0; probe_stdout := Some (JObject []) |};
     ffmpeg := fun command =>
       {| returncode := if bool_decide (last command = Some "/out/temp_clips/clip_0000.ts")
                        then 1 else 0;
          output := [] |} |}.

(** ** More of [str]: [lower], [endswith], and the text of a float *)

Module Str.

(** [c.lower()] of one character. Characters are code points below 256;
    there the capitals are [A-Z] and the Latin-1 capitals U+00C0..U+00DE
    without the multiplication sign U+00D7, each 32 below its small
    letter. *)
Definition is_upper (n : nat) : bool :=
  ((65 <=? n) && (n <=? 90) || (192 <=? n) && (n <=? 214) || (216 <=? n) && (n <=? 222))%nat.

Definition lower_char (c : ascii) : ascii :=
  let n := nat_of_ascii c in
  if is_upper n then ascii_of_nat (n + 32) else c.

(** [s.lower()] *)
Fixpoint lower (s : string) : string :=
  match s with
  | EmptyString => EmptyString
  | String c s' => String (lower_char c) (lower s')
  end.

(** [s.endswith(suffix)]: some tail of [s] is [suffix]. *)
Fixpoint endswith (s suffix : string) : bool :=
  bool_decide (s = suffix)
  || match s with
     | String _ s' => endswith s' suffix
     | EmptyString => false
     end.

(** [s.endswith((x, y, ...))] *)
Definition endswith_any (s : string) (suffixes : list string) : bool :=
  existsb (endswith s) suffixes.

(** [str(v / 100.0)] for an integer [v] of at most fifteen digits: the
    shortest decimal text that reads back as the quotient, which is [v]
    with the point two places from the right and no trailing zero beyond
    the first decimal. *)
Definition hundredths (a : Z) : string :=
  let r := a mod 100 in
  Text.str_Z (a / 100) +:+ "."
  +:+ (if r mod 10 =? 0 then Text.str_Z (r / 10)
       else if r <? 10 then "0" +:+ Text.str_Z r
       else Text.str_Z r).

Definition str_div_100 (v : Z) : string :=
  if v <? 0 then "-" +:+ hundredths (- v) else hundredths v.

End Str.

(** ** The application window

    [check_ffmpeg] and the handlers of [App]. A widget is kept as the value
    it holds; the dialogs shown and the folders handed to the desktop are
    recorded in order. What the operating system answers is a [Desktop]. *)

Module App.

(** How [on_finished] asks the desktop to show a folder. *)
Inductive OpenCall :=
| StartFile (folder : string)          (* os.startfile *)
| Popen (command : list string).       (* subprocess.Popen *)

Record Desktop := {
  which : string -> option string;                 (* shutil.which *)
  getcwd : string;                                 (* os.getcwd() *)
  walk : string -> list (string * list string);    (* os.walk: root and files of each directory *)
  platform : string;                               (* sys.platform *)
  open_error : OpenCall -> option string           (* the text of the exception raised, if any *)
}.

(** [check_ffmpeg()] *)
Definition check_ffmpeg (d : Desktop) : option string * option string :=
  (which d "ffmpeg", which d "ffprobe").

Inductive Dialog :=
| FfmpegWarning                                    (* show_ffmpeg_warning *)
| Critical (title : string) (text : Message)       (* QMessageBox.critical *)
| Information (title : string) (text : Message).   (* QMessageBox.information *)

Record App := {
  ffmpeg_path : option string;
  ffprobe_path : option string;
  video_files : list string;
  destination_folder : string;
  total_length_spinbox : Z;
  clip_length_spinbox : Z;
  layoutmix_slider : Z;
  clipvolume_slider : Z;
  output_name_edit : string;
  video_folder_label : string;
  dest_folder_label : string;
  generate_button : bool;          (* whether the button is enabled *)
  status_label : string;
  progress_bar : Z;
  log_box : list string;           (* the paragraphs appended so far *)
  dialogs : list Dialog;
  opened : list OpenCall
}.

Definition set_sources (files : list string) (text : string) (app : App) : App :=
  {| ffmpeg_path := ffmpeg_path app; ffprobe_path := ffprobe_path app;
     video_files := files; destination_folder := destination_folder app;
     total_length_spinbox := total_length_spinbox app;
     clip_length_spinbox := clip_length_spinbox app;
     layoutmix_slider := layoutmix_slider app; clipvolume_slider := clipvolume_slider app;
     output_name_edit := output_name_edit app;
     video_folder_label := text; dest_folder_label := dest_folder_label app;
     generate_button := generate_button app; status_label := status_label app;
     progress_bar := progress_bar app; log_box := log_box app;
     dialogs := dialogs app; opened := opened app |}.

Definition set_destination (folder text : string) (app : App) : App :=
  {| ffmpeg_path := ffmpeg_path app; ffprobe_path := ffprobe_path app;
     video_files := video_files app; destination_folder := folder;
     total_length_spinbox := total_length_spinbox app;
     clip_length_spinbox := clip_length_spinbox app;
     layoutmix_slider := layoutmix_slider app; clipvolume_slider := clipvolume_slider app;
     output_name_edit := output_name_edit app;
     video_folder_label := video_folder_label app; dest_folder_label := text;
     generate_button := generate_button app; status_label := status_label app;
     progress_bar := progress_bar app; log_box := log_box app;
     dialogs := dialogs app; opened := opened app |}.

(** The widgets below the settings: button, status line, progress bar and
    log. *)
Definition set_controls (enabled : bool) (status : string) (value : Z) (log : list string)
    (app : App) : App :=
  {| ffmpeg_path := ffmpeg_path app; ffprobe_path := ffprobe_path app;
     video_files := video_files app; destination_folder := destination_folder app;
     total_length_spinbox := total_length_spinbox app;
     clip_length_spinbox := clip_length_spinbox app;
     layoutmix_slider := layoutmix_slider app; clipvolume_slider := clipvolume_slider app;
     output_name_edit := output_name_edit app;
     video_folder_label := video_folder_label app; dest_folder_label := dest_folder_label app;
     generate_button := enabled; status_label := status;
     progress_bar := value; log_box := log;
     dialogs := dialogs app; opened := opened app |}.

Definition show (dlg : Dialog) (app : App) : App :=
  {| ffmpeg_path := ffmpeg_path app; ffprobe_path := ffprobe_path app;
     video_files := video_files app; destination_folder := destination_folder app;
     total_length_spinbox := total_length_spinbox app;
     clip_length_spinbox := clip_length_spinbox app;
     layoutmix_slider := layoutmix_slider app; clipvolume_slider := clipvolume_slider app;
     output_name_edit := output_name_edit app;
     video_folder_label := video_folder_label app; dest_folder_label := dest_folder_label app;
     generate_button := generate_button app; status_label := status_label app;
     progress_bar := progress_bar app; log_box := log_box app;
     dialogs := dialogs app ++ [dlg]; opened := opened app |}.

Definition record_open (call : OpenCall) (app : App) : App :=
  {| ffmpeg_path := ffmpeg_path app; ffprobe_path := ffprobe_path app;
     video_files := video_files app; destination_folder := destination_folder app;
     total_length_spinbox := total_length_spinbox app;
     clip_length_spinbox := clip_length_spinbox app;
     layoutmix_slider := layoutmix_slider app; clipvolume_slider := clipvolume_slider app;
     output_name_edit := output_name_edit app;
     video_folder_label := video_folder_label app; dest_folder_label := dest_folder_label app;
     generate_button := generate_button app; status_label := status_label app;
     progress_bar := progress_bar app; log_box := log_box app;
     dialogs := dialogs app; opened := opened app ++ [call] |}.

Definition set_generate_button (enabled : bool) (app : App) : App :=
  set_controls enabled (status_label app) (progress_bar app) (log_box app) app.

Definition set_status_label (text : string) (app : App) : App :=
  set_controls (generate_button app) text (progress_bar app) (log_box app) app.

(** [QProgressBar.setValue]: a value outside the range of the bar, which
    is left at its default 0..100, changes nothing. *)
Definition set_progress_bar (value : Z) (app : App) : App :=
  if (0 <=? value) && (value <=? 100)
  then set_controls (generate_button app) (status_label app) value (log_box app) app
  else app.

Definition set_log_box (log : list string) (app : App) : App :=
  set_controls (generate_button app) (status_label app) (progress_bar app) log app.

(** [log_box.append(text)] *)
Definition append_log (text : string) (app : App) : App :=
  set_log_box (log_box app ++ [text]) app.

(** [not path] for what [shutil.which] returned. *)
Definition missing (path : option string) : bool :=
  match path with
  | None => true
  | Some p => bool_decide (p = EmptyString)
  end.

(** [App.show_ffmpeg_warning] *)
Definition show_ffmpeg_warning (app : App) : App := show FfmpegWarning app.

(** [App.__init__] with the widget values that [initUI] sets. *)
Definition init (d : Desktop) : App :=
  let app :=
    {| ffmpeg_path := fst (check_ffmpeg d); ffprobe_path := snd (check_ffmpeg d);
       video_files := []; destination_folder := getcwd d;
       total_length_spinbox := 120; clip_length_spinbox := 6;
       layoutmix_slider := 50; clipvolume_slider := 100;
       output_name_edit := "compilation.mp4";
       video_folder_label := "No source folder selected";
       dest_folder_label := "Destination: " +:+ getcwd d;
       generate_button := true; status_label := "Ready.";
       progress_bar := -1; log_box := [];
       dialogs := []; opened := [] |} in
  if missing (ffmpeg_path app) || missing (ffprobe_path app)
  then show_ffmpeg_warning app else app.

(** The ranges that [initUI] gives the spin boxes and
    [create_slider_group] gives the sliders; a widget never holds a value
    outside its range. *)
Definition in_ranges (app : App) : Prop :=
  1 <= total_length_spinbox app <= 7200 /\
  1 <= clip_length_spinbox app <= 60 /\
  0 <= layoutmix_slider app <= 100 /\
  0 <= clipvolume_slider app <= 100.

(** [App.create_slider_group]: the text of the label for a slider at
    [value]. [title.split('(')[0]] is what precedes the first opening
    parenthesis. *)
Fixpoint before_paren (title : string) : string :=
  match title with
  | EmptyString => EmptyString
  | String c title' =>
      if bool_decide (c = "("%char) then EmptyString else String c (before_paren title')
  end.

Definition slider_label (title : string) (value : Z) : string :=
  Text.strip (before_paren title) +:+ ": " +:+ Text.str_Z value +:+ "%".

(** [App.select_source_folder], [folder] being what the dialog
    returned (the empty string when it was cancelled). The label passed
    in is [video_folder_label] itself, so the text that stays is the
    second one set. *)
Definition video_extensions : list string := [".mp4"; ".mov"; ".avi"; ".mkv"].

Definition is_video (f : string) : bool :=
  Str.endswith_any (Str.lower f) video_extensions.

Definition scan (tree : list (string * list string)) : list string :=
  flat_map (fun entry => map (PosixPath.join (fst entry)) (filter (fun f => is_video f = true) (snd entry)))
           tree.

Definition select_source_folder (d : Desktop) (folder : string) (app : App) : App :=
  if bool_decide (folder = EmptyString) then app
  else
    let files := scan (walk d folder) in
    set_sources files
      (Text.str_nat (length files) +:+ " videos found in " +:+ PosixPath.basename folder) app.

(** [App.select_dest_folder] *)
Definition select_dest_folder (folder : string) (app : App) : App :=
  if bool_decide (folder = EmptyString) then app
  else set_destination folder ("Destination: " +:+ folder) app.

(** What [generate_video] constructs the worker with. *)
Record Job := {
  job_settings : Settings;
  job_video_files : list string;
  job_ffprobe_path : string
}.

Definition build_settings (app : App) : Settings :=
  {| layout_mix := layoutmix_slider app;
     clip_vol := Str.str_div_100 (clipvolume_slider app);
     total_duration := total_length_spinbox app;
     scene_duration := clip_length_spinbox app;
     output_folder := destination_folder app;
     output_path := PosixPath.join (destination_folder app) (output_name_edit app) |}.

(** [App.generate_video]: the window after the click, and the worker it
    started, if any. *)
Definition generate_video (app : App) : App * option Job :=
  if missing (ffmpeg_path app) || missing (ffprobe_path app)
  then (show_ffmpeg_warning app, None)
  else
    match video_files app, ffprobe_path app with
    | [], _ => (show (Critical "Input Error" (Text "Please select a source folder.")) app, None)
    | _, None => (show_ffmpeg_warning app, None)     (* excluded by the guard above *)
    | _, Some probe =>
        (set_generate_button false (set_progress_bar 0 (set_log_box [] app)),
         Some {| job_settings := build_settings app;
                 job_video_files := video_files app;
                 job_ffprobe_path := probe |})
    end.

(** [App.update_progress] *)
Definition update_progress (value : Z) (text : string) (app : App) : App :=
  set_status_label text (set_progress_bar value app).

(** [App.on_finished] *)
Definition open_call (d : Desktop) (folder : string) : OpenCall :=
  if bool_decide (platform d = "win32") then StartFile folder
  else if bool_decide (platform d = "darwin") then Popen ["open"; folder]
  else Popen ["xdg-open"; folder].

Definition on_finished (d : Desktop) (message : Message) (success : bool) (app : App) : App :=
  let app1 := set_status_label "Finished." (set_generate_button true app) in
  if success then
    let app2 := show (Information "Success" message) app1 in
    let call := open_call d (destination_folder app2) in
    let app3 := record_open call app2 in
    match open_error d call with
    | None => app3
    | Some e => append_log (nl +:+ "Could not open output folder: " +:+ e) app3
    end
  else show (Critical "Error" message) app1.

(** The three connections that [generate_video] makes: each signal of the
    worker runs its slot; the other events of a run do not reach the
    window. *)
Definition deliver (d : Desktop) (app : App) (e : Event) : App :=
  match e with
  | LogMessage line => append_log line app
  | Progress value text => update_progress value text app
  | Finished message success => on_finished d message success app
  | _ => app
  end.

(** A click on the button, followed by the run of the worker it started
    and the delivery of its signals in the order of emission. *)
Definition session (d : Desktop) (w : World) (g : Random.Rng) (app : App) : App :=
  match generate_video app with
  | (app', Some job) =>
      fold_left (deliver d)
        (trace (run w (job_settings job) (job_video_files job) (job_ffprobe_path job)
                    (initial g false)))
        app'
  | (app', None) => app'
  end.

End App.

(** ** Further observations *)

(** The events of STAGE 1: progress signals and transcoder runs. *)
Definition stage1_event (e : Event) : bool :=
  match e with
  | Progress _ _ | Render _ _ => true
  | _ => false
  end.






(** ** Sample windows and desktops *)

Definition linux_desktop : App.Desktop :=
  {| App.which := fun name => Some ("/usr/bin/" +:+ name);
     App.getcwd := "/home/u";
     App.walk := fun folder => [(folder, ["a.mp4"; "notes.txt"; "B.MOV"]);
                                (folder +:+ "/sub", ["a.mp4"])];
     App.platform := "linux";
     App.open_error := fun _ => None |}.

Definition bare_desktop : App.Desktop :=
  {| App.which := fun _ => None;
     App.getcwd := "/home/u";
     App.walk := fun _ => [];
     App.platform := "linux";
     App.open_error := fun _ => Some "missing" |}.

Definition sample_app : App.App :=
  App.select_source_folder linux_desktop "/videos" (App.init linux_desktop).

(** A window whose total length is shorter than one clip. *)
Definition short_app : App.App :=
  {| App.ffmpeg_path := Some "/usr/bin/ffmpeg"; App.ffprobe_path := Some "/usr/bin/ffprobe";
     App.video_files := ["/videos/a.mp4"]; App.destination_folder := "/home/u";
     App.total_length_spinbox := 5; App.clip_length_spinbox := 6;
     App.layoutmix_slider := 50; App.clipvolume_slider := 100;
     App.output_name_edit := "compilation.mp4";
     App.video_folder_label := "1 videos found in videos";
     App.dest_folder_label := "Destination: /home/u";
     App.generate_button := true; App.status_label := "Ready.";
     App.progress_bar := -1; App.log_box := [];
     App.dialogs := []; App.opened := [] |}.

(** A world whose probe prints a JSON array for every file. *)
Definition array_world : World :=
  {| ffprobe := fun _ => {| probe_returncode := 0; probe_stdout := Some (JArray []) |};
     ffmpeg := fun _ => {| returncode := 0; output := [] |} |}.

(** * Properties *)

(** ** Binary64 arithmetic: the progress percentage is always defined

    Coarse bounds on mantissas and exponents through the rounding of
    [SpecFloat] are enough to see that no infinity and no NaN can come out
    of [int((i / n) * 100)] for integers below [2^53]. *)

Section FloatFacts.

Lemma fexp64_eq (x : Z) : fexp Float64.prec Float64.emax x = Z.max (x - 53) (-1074).
Proof. reflexivity. Qed.

Lemma digits2_pos_bounds (p : positive) :
  2 ^ (Zpos (digits2_pos p) - 1) <= Zpos p < 2 ^ Zpos (digits2_pos p).
Proof.
  induction p as [p IH|p IH|]; simpl digits2_pos.
  - rewrite Pos2Z.inj_succ, Z.pow_succ_r by lia.
    replace (Z.succ (Zpos (digits2_pos p)) - 1) with (Z.succ (Zpos (digits2_pos p) - 1)) by lia.
    rewrite Z.pow_succ_r by lia. lia.
  - rewrite Pos2Z.inj_succ, Z.pow_succ_r by lia.
    replace (Z.succ (Zpos (digits2_pos p)) - 1) with (Z.succ (Zpos (digits2_pos p) - 1)) by lia.
    rewrite Z.pow_succ_r by lia. lia.
  - simpl. lia.
Qed.

Lemma Zdigits2_le (m D : Z) : 0 <= m < 2 ^ D -> 0 <= D -> Zdigits2 m <= D.
Proof.
  intros [Hm HD] HD0. destruct m as [|p|p]; simpl; [lia| |lia].
  pose proof (digits2_pos_bounds p) as [Hlo _].
  assert (2 ^ (Zpos (digits2_pos p) - 1) < 2 ^ D) as Hlt by lia.
  apply Z.pow_lt_mono_r_iff in Hlt; lia.
Qed.

Lemma Zdigits2_nonneg (m : Z) : 0 <= Zdigits2 m.
Proof. destruct m; simpl; lia. Qed.

Lemma shr_1_bounds (mrs : shr_record) :
  0 <= shr_m mrs -> 0 <= shr_m (shr_1 mrs) <= shr_m mrs.
Proof.
  destruct mrs as [m r s]. simpl. intros Hm.
  destruct m as [|p|p]; [simpl; lia| |lia].
  destruct p; simpl; lia.
Qed.

Lemma iter_shr_1_bounds (p : positive) :
  forall mrs, 0 <= shr_m mrs -> 0 <= shr_m (SpecFloat.iter_pos shr_1 p mrs) <= shr_m mrs.
Proof.
  induction p as [p IH|p IH|]; intros mrs Hm; simpl.
  - pose proof (shr_1_bounds mrs Hm).
    pose proof (IH (shr_1 mrs) ltac:(lia)).
    pose proof (IH (SpecFloat.iter_pos shr_1 p (shr_1 mrs)) ltac:(lia)). lia.
  - pose proof (IH mrs Hm).
    pose proof (IH (SpecFloat.iter_pos shr_1 p mrs) ltac:(lia)). lia.
  - by apply shr_1_bounds.
Qed.

Lemma shr_record_of_loc_m (m : Z) (l : location) : shr_m (shr_record_of_loc m l) = m.
Proof. destruct l as [|[]]; reflexivity. Qed.

Lemma shr_fexp_bounds (m e : Z) (l : location) :
  0 <= m ->
  0 <= shr_m (fst (shr_fexp Float64.prec Float64.emax m e l)) <= m /\
  snd (shr_fexp Float64.prec Float64.emax m e l) <= Z.max e (fexp Float64.prec Float64.emax (Zdigits2 m + e)).
Proof.
  intros Hm. unfold shr_fexp, shr.
  destruct (fexp Float64.prec Float64.emax (Zdigits2 m + e) - e) as [|p|p] eqn:Hn; simpl.
  - rewrite shr_record_of_loc_m. lia.
  - pose proof (iter_shr_1_bounds p (shr_record_of_loc m l)) as H.
    rewrite shr_record_of_loc_m in H. split; [by apply H | lia].
  - rewrite shr_record_of_loc_m. lia.
Qed.

Lemma round_nearest_even_bounds (m : Z) (l : location) :
  m <= round_nearest_even m l <= m + 1.
Proof. destruct l as [|[]]; simpl; try lia. destruct (Z.even m); lia. Qed.

Lemma binary_round_aux_within (sx : bool) (mx ex : Z) (lx : location) (D B : Z) :
  0 <= mx < 2 ^ D -> 0 <= D -> ex <= B -> -1074 <= B -> 2 * D + B <= 971 ->
  within D (2 * D + B) (binary_round_aux Float64.prec Float64.emax sx mx ex lx).
Proof.
  intros Hmx HD Hex HB Hfit. unfold binary_round_aux.
  pose proof (shr_fexp_bounds mx ex lx ltac:(lia)) as [Hm1 He1].
  destruct (shr_fexp Float64.prec Float64.emax mx ex lx) as [mrs1 e1]. simpl in Hm1, He1.
  pose proof (round_nearest_even_bounds (shr_m mrs1) (loc_of_shr_record mrs1)) as Hrne.
  set (m1 := round_nearest_even (shr_m mrs1) (loc_of_shr_record mrs1)) in *.
  pose proof (shr_fexp_bounds m1 e1 loc_Exact ltac:(lia)) as [Hm2 He2].
  destruct (shr_fexp Float64.prec Float64.emax m1 e1 loc_Exact) as [mrs2 e2]. simpl in Hm2, He2.
  pose proof (Zdigits2_le mx D Hmx HD) as Hd.
  assert (Hd1 : Zdigits2 m1 <= D + 1).
  { apply Zdigits2_le; [|lia]. rewrite Z.pow_add_r, Z.pow_1_r by lia. lia. }
  pose proof (Zdigits2_nonneg mx). pose proof (Zdigits2_nonneg m1).
  rewrite fexp64_eq in He1, He2.
  assert (He2' : e2 <= 2 * D + B) by lia.
  destruct (shr_m mrs2) as [|m|m] eqn:Hm; [exact I| |lia].
  change (Float64.emax - Float64.prec) with 971.
  destruct (Z.leb_spec e2 971); [|lia].
  simpl. split; lia.
Qed.

Lemma of_int_zero : Float64.of_int 0 = S754_zero false.
Proof. reflexivity. Qed.

Lemma iter_xO_value (d : positive) (p : positive) :
  Zpos (Pos.iter xO p d) = Zpos p * 2 ^ Zpos d.
Proof.
  revert p. induction d as [|d IH] using Pos.peano_ind; intros p.
  - simpl. lia.
  - rewrite Pos.iter_succ, Pos2Z.inj_succ, Z.pow_succ_r by lia.
    rewrite Pos2Z.inj_xO, IH. lia.
Qed.

Lemma digits2_pos_unique (p : positive) (d : Z) :
  2 ^ (d - 1) <= Zpos p < 2 ^ d -> 0 < d -> Zpos (digits2_pos p) = d.
Proof.
  intros [Hlo Hhi] Hd. pose proof (digits2_pos_bounds p) as [Hlo' Hhi'].
  assert (2 ^ (d - 1) < 2 ^ Zpos (digits2_pos p)) as H1 by lia.
  assert (2 ^ (Zpos (digits2_pos p) - 1) < 2 ^ d) as H2 by lia.
  apply Z.pow_lt_mono_r_iff in H1; [|lia|lia].
  apply Z.pow_lt_mono_r_iff in H2; lia.
Qed.

(** Below [2^53] the conversion is exact: a positive integer becomes a
    finite positive value with a 53-bit mantissa. *)
Lemma of_int_pos (z : Z) :
  0 < z < 2 ^ 53 ->
  exists m e, Float64.of_int z = S754_finite false m e /\ Zpos m < 2 ^ 53 /\ -52 <= e <= 0.
Proof.
  intros [Hz0 Hz]. destruct z as [|p|p]; [lia| |lia].
  unfold Float64.of_int, binary_normalize, binary_round.
  pose proof (digits2_pos_bounds p) as [Hlo Hhi].
  assert (Hd : Zpos (digits2_pos p) <= 53).
  { assert (2 ^ (Zpos (digits2_pos p) - 1) < 2 ^ 53) as H by lia.
    apply Z.pow_lt_mono_r_iff in H; lia. }
  rewrite fexp64_eq.
  replace (Z.max (Zpos (digits2_pos p) + 0 - 53) (-1074)) with (Zpos (digits2_pos p) - 53) by lia.
  assert (Hshape : exists mz ez, shl_align p 0 (Zpos (digits2_pos p) - 53) = (mz, ez) /\
                     Zpos (digits2_pos mz) = 53 /\ ez = Zpos (digits2_pos p) - 53).
  { unfold shl_align.
    destruct (Zpos (digits2_pos p) - 53 - 0) as [|d|d] eqn:Hdiff.
    - exists p, 0. split; [reflexivity|]. lia.
    - lia.
    - exists (Pos.iter xO p d), (Zpos (digits2_pos p) - 53). split; [reflexivity|].
      split; [|reflexivity]. apply digits2_pos_unique; [|lia].
      rewrite iter_xO_value.
      assert (Zpos d = 53 - Zpos (digits2_pos p)) as -> by lia.
      assert (E1 : 2 ^ (Zpos (digits2_pos p) - 1) * 2 ^ (53 - Zpos (digits2_pos p)) = 2 ^ (53 - 1)).
      { rewrite <- Z.pow_add_r by lia. f_equal. lia. }
      assert (E2 : 2 ^ Zpos (digits2_pos p) * 2 ^ (53 - Zpos (digits2_pos p)) = 2 ^ 53).
      { rewrite <- Z.pow_add_r by lia. f_equal. lia. }
      assert (0 < 2 ^ (53 - Zpos (digits2_pos p))) by (apply Z.pow_pos_nonneg; lia).
      rewrite <- E1, <- E2.
      nia. }
  destruct Hshape as (mz & ez & -> & Hdz & Hez).
  exists mz, ez. split.
  - unfold binary_round_aux, shr_fexp. simpl Zdigits2. rewrite Hdz, fexp64_eq.
    replace (Z.max (53 + ez - 53) (-1074) - ez) with 0 by lia.
    simpl shr. cbv beta iota. simpl shr_m. simpl loc_of_shr_record. simpl round_nearest_even.
    simpl Zdigits2. rewrite Hdz, fexp64_eq.
    replace (Z.max (53 + ez - 53) (-1074) - ez) with 0 by lia.
    simpl. change (Float64.emax - Float64.prec) with 971.
    destruct (Z.leb_spec ez 971); [reflexivity | lia].
  - pose proof (digits2_pos_bounds mz) as [_ H]. rewrite Hdz in H. lia.
Qed.

Lemma SFdiv_within (s1 s2 : bool) (m1 m2 : positive) (e1 e2 : Z) :
  Zpos m1 < 2 ^ 53 -> Zpos m2 < 2 ^ 53 -> -52 <= e1 <= 0 -> -52 <= e2 <= 0 ->
  within 159 370 (SFdiv Float64.prec Float64.emax (S754_finite s1 m1 e1) (S754_finite s2 m2 e2)).
Proof.
  intros Hm1 Hm2 He1 He2. unfold SFdiv, SFdiv_core_binary.
  set (e' := Z.min _ _).
  assert (He' : e1 - e2 - 106 <= e' <= e1 - e2).
  { unfold e'. rewrite fexp64_eq. simpl Zdigits2.
    pose proof (digits2_pos_bounds m1) as [_ H1]. pose proof (digits2_pos_bounds m2) as [H2 _].
    assert (Zpos (digits2_pos m2) <= 53).
    { assert (2 ^ (Zpos (digits2_pos m2) - 1) < 2 ^ 53) as H by lia.
      apply Z.pow_lt_mono_r_iff in H; lia. }
    lia. }
  set (m' := match e1 - e2 - e' with Z0 => Zpos m1 | Zpos _ => Z.shiftl (Zpos m1) (e1 - e2 - e') | Zneg _ => 0 end).
  assert (Hm' : 0 <= m' < 2 ^ 159).
  { unfold m'. destruct (e1 - e2 - e') as [|s|s] eqn:Hs; [lia| |lia].
    rewrite Z.shiftl_mul_pow2 by lia.
    assert (2 ^ Zpos s <= 2 ^ 106) by (apply Z.pow_le_mono_r; lia).
    assert (0 < 2 ^ Zpos s) by (apply Z.pow_pos_nonneg; lia).
    replace (2 ^ 159) with (2 ^ 53 * 2 ^ 106) by reflexivity. nia. }
  pose proof (Z_div_mod m' (Zpos m2) ltac:(lia)) as Hdiv.
  destruct (Z.div_eucl m' (Zpos m2)) as [q r]. destruct Hdiv as [Hq Hr].
  replace 370 with (2 * 159 + 52) by reflexivity.
  apply binary_round_aux_within; try lia.
  split; nia.
Qed.

Lemma SFmul_within (sx sy : bool) (mx my : positive) (ex ey : Z) :
  Zpos mx <= 2 ^ 159 -> Zpos my < 2 ^ 53 -> ex <= 370 -> ey <= 0 ->
  within 213 796 (SFmul Float64.prec Float64.emax (S754_finite sx mx ex) (S754_finite sy my ey)).
Proof.
  intros Hmx Hmy Hex Hey. unfold SFmul.
  replace 796 with (2 * 213 + 370) by reflexivity.
  apply binary_round_aux_within; try lia.
  rewrite Pos2Z.inj_mul. replace (2 ^ 213) with (2 ^ 159 * 2 ^ 53 * 2) by reflexivity. nia.
Qed.

Lemma to_int_within (D B : Z) (x : spec_float) :
  within D B x -> exists p, Float64.to_int x = inr p.
Proof. destruct x; simpl; try done; eauto. Qed.

End FloatFacts.

(** [int((i / n) * 100)] never raises for a positive [n] when both integers
    convert exactly. *)
Lemma progress_percent_total (i n : nat) :
  (0 < n)%nat -> Z.of_nat i < 2 ^ 53 -> Z.of_nat n < 2 ^ 53 ->
  exists p, progress_percent i n = inr p.
Proof.
  intros Hn Hi Hn53. unfold progress_percent, Float64.truediv.
  destruct (Z.eqb_spec (Z.of_nat n) 0); [lia|].
  destruct (of_int_pos (Z.of_nat n) ltac:(lia)) as (m2 & e2 & -> & Hm2 & He2).
  destruct (of_int_pos 100 ltac:(split; [lia | reflexivity])) as (mc & ec & Hc & Hmc & Hec).
  unfold Float64.mul. rewrite Hc.
  destruct (Nat.eq_dec i 0%nat) as [->|Hi0].
  - change (Float64.of_int (Z.of_nat 0)) with (S754_zero false). simpl. eauto.
  - destruct (of_int_pos (Z.of_nat i) ltac:(lia)) as (m1 & e1 & -> & Hm1 & He1).
    pose proof (SFdiv_within false false m1 m2 e1 e2 Hm1 Hm2 He1 He2) as Hq.
    destruct (SFdiv Float64.prec Float64.emax (S754_finite false m1 e1) (S754_finite false m2 e2))
      as [s|s| |s m e] eqn:Hdiv; try done.
    + simpl. eauto.
    + destruct Hq as [Hm He].
      eapply to_int_within. apply SFmul_within; lia.
Qed.

Lemma progress_percent_percent (i n : nat) :
  (0 < n)%nat -> Z.of_nat i < 2 ^ 53 -> Z.of_nat n < 2 ^ 53 ->
  progress_percent i n = inr (percent i n).
Proof.
  intros Hn Hi Hn53. unfold percent.
  destruct (progress_percent_total i n Hn Hi Hn53) as [p ->]. reflexivity.
Qed.

(** ** The monad *)

Lemma repeatM_Forall {S A} (P : A -> Prop) (m : SE S A) :
  (forall s, exists a s', m s = Ret a s' /\ P a) ->
  forall n s, exists l s', repeatM n m s = Ret l s' /\ length l = n /\ Forall P l.
Proof.
  intros Hm n. induction n as [|n IH]; intros s; simpl.
  - exists [], s. split; [reflexivity | split; [reflexivity | constructor]].
  - unfold se_bind. destruct (Hm s) as (a & s1 & -> & Ha).
    destruct (IH s1) as (l & s2 & -> & Hlen & Hl).
    exists (a :: l), s2. simpl. split; [reflexivity|]. split; [congruence | by constructor].
Qed.

(** ** The [random] module *)

Lemma randint_range (a b : Z) (g : Random.Rng) :
  a <= b -> exists v g', Random.randint a b g = Ret v g' /\ a <= v <= b.
Proof.
  intros Hab. unfold Random.randint, se_bind, Random.draw, se_ret.
  destruct g as [|r g'].
  - eexists _, _. split; [reflexivity|].
    pose proof (Z.mod_pos_bound (Z.of_nat 0) (b - a + 1)). lia.
  - eexists _, _. split; [reflexivity|].
    pose proof (Z.mod_pos_bound (Z.of_nat r) (b - a + 1)). lia.
Qed.

Lemma choice_elem_of {A} (seq : list A) (g : Random.Rng) :
  seq <> [] -> exists v g', Random.choice seq g = Ret v g' /\ v ∈ seq.
Proof.
  intros Hne. destruct seq as [|x seq']; [done|].
  unfold Random.choice, se_bind, se_ret.
  assert (Hin : forall r : nat, nth (r mod length (x :: seq')) (x :: seq') x ∈ x :: seq').
  { intros r. apply list_elem_of_In, nth_In. apply Nat.mod_upper_bound. simpl. lia. }
  destruct g as [|r g']; simpl Random.draw; cbv iota beta; eexists _, _; (split; [reflexivity|]); apply Hin.
Qed.

(** Drawing without replacement yields a sub-multiset of the pool: no
    position is used twice. *)
Lemma sample_go_submseteq {A} (k : nat) :
  forall (pool : list A) (g : Random.Rng),
    (k <= length pool)%nat ->
    exists vs g', Random.sample_go pool k g = Ret vs g' /\ length vs = k /\ vs ⊆+ pool.
Proof.
  induction k as [|k IH]; intros pool g Hk; simpl.
  - exists [], g. split; [reflexivity|]. split; [reflexivity|]. apply submseteq_nil_l.
  - unfold se_bind at 1.
    assert (Hdraw : exists r g1, Random.draw g = Ret r g1).
    { destruct g; simpl; eauto. }
    destruct Hdraw as (r & g1 & ->).
    assert (Hj : (r mod length pool < length pool)%nat).
    { apply Nat.mod_upper_bound. lia. }
    destruct (lookup_lt_is_Some_2 pool _ Hj) as [x Hx]. rewrite Hx.
    destruct (IH (delete (r mod length pool)%nat pool) g1) as (xs & g2 & Hxs & Hlen & Hsub).
    { rewrite length_delete by eauto. lia. }
    unfold se_bind. rewrite Hxs. exists (x :: xs), g2.
    split; [reflexivity|]. split; [simpl; congruence|].
    rewrite (delete_Permutation pool _ x Hx). by apply submseteq_skip.
Qed.

Lemma sample_submseteq {A} (population : list A) (k : nat) (g : Random.Rng) :
  (k <= length population)%nat ->
  exists vs g', Random.sample population k g = Ret vs g' /\ length vs = k /\ vs ⊆+ population.
Proof.
  intros Hk. unfold Random.sample.
  destruct (Nat.ltb_spec (length population) k); [lia|].
  by apply sample_go_submseteq.
Qed.

Lemma submseteq_NoDup_inv {A} (l k : list A) : l ⊆+ k -> NoDup k -> NoDup l.
Proof.
  intros Hsub Hk. apply submseteq_Permutation in Hsub as [rest Hrest].
  rewrite Hrest in Hk. by apply NoDup_app in Hk as [? _].
Qed.



(** ** C5: the participants of a scene *)

Lemma pick_scene_vids_spec (video_files : list string) (t : SceneType) (g : Random.Rng) :
  video_files <> [] ->
  exists scene_vids g',
    pick_scene_vids video_files t g = Ret scene_vids g' /\
    length scene_vids = req_vids t /\
    (forall v, v ∈ scene_vids -> v ∈ video_files) /\
    ((req_vids t <= length video_files)%nat ->
       Random.sample video_files (req_vids t) g = Ret scene_vids g' /\
       scene_vids ⊆+ video_files /\
       (NoDup video_files -> NoDup scene_vids)) /\
    ((length video_files < req_vids t)%nat ->
       repeatM (req_vids t) (Random.choice video_files) g = Ret scene_vids g').
Proof.
  intros Hne. unfold pick_scene_vids.
  destruct (Nat.ltb_spec (length video_files) (req_vids t)) as [Hlt|Hge].
  - destruct (repeatM_Forall (fun v => v ∈ video_files) (Random.choice video_files)
                (fun s => choice_elem_of video_files s Hne) (req_vids t) g)
      as (vs & g' & Hrun & Hlen & Hall).
    exists vs, g'. split; [done|]. split; [done|].
    split; [by apply Forall_forall|]. split; [lia | done].
  - destruct (sample_submseteq video_files (req_vids t) g Hge) as (vs & g' & Hrun & Hlen & Hsub).
    exists vs, g'. split; [done|]. split; [done|].
    split; [intros v Hv; by eapply elem_of_submseteq|].
    split; [|lia]. intros _. split; [done|]. split; [done|].
    by apply submseteq_NoDup_inv.
Qed.




(** ** C4 and C9: the plan *)

Lemma plan_scene_returns (settings : Settings) (g : Random.Rng) :
  exists scene g', plan_scene settings g = Ret scene g' /\
    (layout_mix settings <= 0 -> type scene = Single) /\
    (100 <= layout_mix settings -> is_grid (type scene) = true).
Proof.
  unfold plan_scene. unfold se_bind at 1.
  destruct (randint_range 1 100 g ltac:(lia)) as (v & g1 & -> & Hv).
  destruct (Z.leb_spec v (layout_mix settings)) as [Hle|Hgt].
  - unfold se_bind.
    destruct (choice_elem_of available_layouts g1 ltac:(discriminate)) as (t & g2 & -> & Ht).
    exists {| type := t |}, g2. split; [reflexivity|]. split; [lia|]. intros _. simpl.
    apply list_elem_of_In in Ht. simpl in Ht. destruct Ht as [<-|[<-|[]]]; reflexivity.
  - exists {| type := Single |}, g1. split; [reflexivity|]. split; [reflexivity | lia].
Qed.

Lemma plan_scenes_returns (settings : Settings) (g : Random.Rng) :
  exists scenes g', _plan_scenes settings g = Ret scenes g' /\
    length scenes = (if scene_duration settings <=? 0 then 0%nat
                     else Z.to_nat (total_duration settings / scene_duration settings)) /\
    (layout_mix settings <= 0 -> Forall (fun scene => type scene = Single) scenes) /\
    (100 <= layout_mix settings -> Forall (fun scene => is_grid (type scene) = true) scenes).
Proof.
  unfold _plan_scenes. destruct (scene_duration settings <=? 0).
  - exists [], g. repeat split; constructor.
  - destruct (repeatM_Forall
                (fun scene => (layout_mix settings <= 0 -> type scene = Single) /\
                              (100 <= layout_mix settings -> is_grid (type scene) = true))
                (plan_scene settings) (plan_scene_returns settings)
                (Z.to_nat (total_duration settings / scene_duration settings)) g)
      as (l & g' & Hrun & Hlen & Hall).
    exists l, g'. split; [done|]. split; [done|].
    split; intros Hmix; eapply Forall_impl; try exact Hall; simpl; intros sc [H0 H100]; auto.
Qed.






(** ** C6: the audio side of a filter graph *)






(** ** C2: frame sizes of the video stages *)

Lemma grid_stage_counts (t : SceneType) :
  is_grid t = true ->
  video_filters t = tiles t ++ rows t ++ [column t] /\
  length (tiles t) = (grid_dim t * grid_dim t)%nat /\
  length (rows t) = grid_dim t /\
  Forall (fun st => exists i, st = ScalePad i (SizeWH (1280 / Z.of_nat (grid_dim t))
                                                    (720 / Z.of_nat (grid_dim t)))
                                        ("v" +:+ Text.str_nat i)) (tiles t).
Proof.
  intros Hgrid. destruct t; [discriminate| |];
    (split; [reflexivity|]; split; [reflexivity|]; split; [reflexivity|]);
    unfold tiles; apply Forall_forall; intros st Hst;
    apply list_elem_of_fmap in Hst as (i & -> & _); by exists i.
Qed.

Lemma single_and_2x2_frames :
  video_filters Single = [ScalePad 0 (SizeRes "1280x720") "vout"] /\
  Geometry.output_size (video_filters Single) "vout" = Some (1280, 720) /\
  Geometry.output_size (video_filters Grid2x2) "vout" = Some (1280, 720).
Proof. split; [reflexivity|]. split; vm_compute; reflexivity. Qed.

(** C2, at the failing input. A [3x3] scene gets nine tiles of 426x240
    (1280 // 3 = 426), three rows of three tiles and one column of three
    rows; the rows are 1278 wide, so the video output is 1278x720 and not
    the target 1280x720 that the [single] and [2x2] graphs produce. *)
Theorem grid3x3_frame_size :
  (tile_w Grid3x3, tile_h Grid3x3) = (426, 240) /\
  length (tiles Grid3x3) = 9%nat /\ length (rows Grid3x3) = 3%nat /\
  nth 9 (map render_stage (video_filters Grid3x3)) EmptyString
    = "[v0][v1][v2]hstack=inputs=3[row0]" /\
  Geometry.output_size (video_filters Grid3x3) "row0" = Some (1278, 240) /\
  Geometry.output_size (video_filters Grid3x3) "vout" = Some (1278, 720) /\
  Geometry.output_size (video_filters Grid3x3) "vout"
    <> Geometry.output_size (video_filters Single) "vout".
Proof. repeat split; try (vm_compute; reflexivity). vm_compute. discriminate. Qed.

(** ** C7: probing *)

Lemma get_media_info_run (w : World) (filepath ffprobe_path : string) (s : St) :
  get_media_info w filepath ffprobe_path s =
  match probe_result w ffprobe_path filepath with
  | inr info => Ret info (emit_st (probe_event w ffprobe_path filepath) s)
  | inl e => Raise e (emit_st (probe_event w ffprobe_path filepath) s)
  end.
Proof.
  unfold get_media_info, probe_result, probe_event, se_bind, emit, modify, lift_exn.
  destruct (probe_except _); reflexivity.
Qed.

Lemma probe_failure_is_no_audio (reply : ProbeReply) :
  probe_returncode reply <> 0 \/
  probe_stdout reply = None \/
  (exists info, probe_stdout reply = Some (JObject info) /\ dict_get "streams" info = None) ->
  probe_except (probe_try reply) = inr {| has_audio := false |}.
Proof.
  unfold probe_try. intros [Hrc|[Hnone|(info & Hobj & Hget)]].
  - destruct (Z.eqb_spec (probe_returncode reply) 0); [done | reflexivity].
  - rewrite Hnone. destruct (probe_returncode reply =? 0); reflexivity.
  - rewrite Hobj, Hget. destruct (probe_returncode reply =? 0); reflexivity.
Qed.

Lemma emit_st_trace (e : Event) (s : St) : trace (emit_st e s) = trace s ++ [e].
Proof. reflexivity. Qed.

Lemma cache_video_info_nil (w : World) (ffprobe_path : string) (s : St) :
  _cache_video_info w [] ffprobe_path s = Ret tt s.
Proof. reflexivity. Qed.

Lemma cache_video_info_cons (w : World) (ffprobe_path vid : string) (rest : list string) (s : St) :
  _cache_video_info w (vid :: rest) ffprobe_path s =
  match video_info_cache s !! vid with
  | Some _ => _cache_video_info w rest ffprobe_path s
  | None =>
      match probe_result w ffprobe_path vid with
      | inr info =>
          _cache_video_info w rest ffprobe_path
            (set_cache (<[vid := info]> (video_info_cache s))
                       (emit_st (probe_event w ffprobe_path vid) s))
      | inl e => Raise e (emit_st (probe_event w ffprobe_path vid) s)
      end
  end.
Proof.
  unfold _cache_video_info. simpl. unfold se_bind at 1. unfold se_bind at 1. unfold get at 1.
  destruct (video_info_cache s !! vid); [reflexivity|].
  unfold se_bind at 1. rewrite get_media_info_run.
  destruct (probe_result w ffprobe_path vid); reflexivity.
Qed.

(** [_cache_video_info] probes each file that is not cached yet once, keeps
    what was cached, and touches nothing else. *)
Lemma cache_video_info_spec (w : World) (ffprobe_path : string) (video_files : list string) :
  forall s : St,
    let r := _cache_video_info w video_files ffprobe_path s in
    exists probed : list string,
      trace (final r) = trace s ++ map (probe_event w ffprobe_path) probed /\
      rng (final r) = rng s /\
      workspace_exists (final r) = workspace_exists s /\
      NoDup probed /\
      (forall p, p ∈ probed -> p ∈ video_files /\ video_info_cache s !! p = None) /\
      (forall p info, video_info_cache s !! p = Some info ->
                      video_info_cache (final r) !! p = Some info) /\
      (returned r = true ->
       forall p, p ∈ video_files ->
         exists info, video_info_cache (final r) !! p = Some info /\
           (video_info_cache s !! p = Some info \/
            (p ∈ probed /\ probe_result w ffprobe_path p = inr info))).
Proof.
  induction video_files as [|vid rest IH]; intros s r; subst r.
  - rewrite cache_video_info_nil. exists []. simpl. rewrite app_nil_r.
    split; [done|]. split; [done|]. split; [done|]. split; [constructor|].
    split; [intros p Hp; by apply elem_of_nil in Hp|].
    split; [done|]. intros _ p Hp. by apply elem_of_nil in Hp.
  - rewrite cache_video_info_cons.
    destruct (video_info_cache s !! vid) as [cached|] eqn:Hvid.
    + destruct (IH s) as (probed & Htr & Hrng & Hws & Hnd & Hin & Hkeep & Hall).
      exists probed. split; [done|]. split; [done|]. split; [done|]. split; [done|].
      split; [intros p Hp; destruct (Hin p Hp); split; [by apply list_elem_of_further | done]|].
      split; [done|].
      intros Hret p Hp. apply elem_of_cons in Hp as [->|Hp]; [|by apply Hall].
      exists cached. split; [by apply Hkeep | by left].
    + destruct (probe_result w ffprobe_path vid) as [e|info] eqn:Hres.
      * exists [vid]. simpl. split; [done|]. split; [done|]. split; [done|].
        split; [apply NoDup_singleton|].
        split; [intros p ->%list_elem_of_singleton; split; [apply list_elem_of_here | done]|].
        split; [done|]. discriminate.
      * set (s1 := set_cache _ _).
        destruct (IH s1) as (probed & Htr & Hrng & Hws & Hnd & Hin & Hkeep & Hall).
        assert (Hs1 : video_info_cache s1 !! vid = Some info) by apply lookup_insert_eq.
        assert (Hfresh : vid ∉ probed).
        { intros Hp. destruct (Hin _ Hp) as [_ Hnone]. congruence. }
        exists (vid :: probed). split.
        { rewrite Htr. unfold s1. simpl. by rewrite <- app_assoc. }
        split; [done|]. split; [done|]. split; [by constructor|].
        split.
        { intros p Hp. apply elem_of_cons in Hp as [->|Hp].
          - split; [apply list_elem_of_here | done].
          - destruct (Hin p Hp) as [Hrest Hnone]. split; [by apply list_elem_of_further|].
            unfold s1 in Hnone. simpl in Hnone.
            destruct (decide (vid = p)) as [->|Hne]; [by rewrite lookup_insert_eq in Hnone|].
            by rewrite lookup_insert_ne in Hnone. }
        split.
        { intros p i Hp. apply Hkeep. unfold s1. simpl.
          destruct (decide (vid = p)) as [->|Hne]; [congruence|]. by rewrite lookup_insert_ne. }
        intros Hret p Hp.
        destruct (decide (p = vid)) as [->|Hne].
        { exists info. split; [by apply Hkeep|]. right. split; [apply list_elem_of_here | done]. }
        apply elem_of_cons in Hp as [->|Hp]; [done|].
        destruct (Hall Hret p Hp) as (i & Hi & Hsrc). exists i. split; [done|].
        destruct Hsrc as [Hold|[Hpr Hres']].
        { left. unfold s1 in Hold. simpl in Hold. by rewrite lookup_insert_ne in Hold. }
        right. split; [by apply list_elem_of_further | done].
Qed.

(** ** The pipeline, step by step *)

Lemma emitted_refl (s : St) : emitted s s [].
Proof. unfold emitted. by rewrite app_nil_r. Qed.

Lemma emitted_trans (s1 s2 s3 : St) (evs1 evs2 : list Event) :
  emitted s1 s2 evs1 -> emitted s2 s3 evs2 -> emitted s1 s3 (evs1 ++ evs2).
Proof.
  intros (Hc1 & Hw1 & Ht1) (Hc2 & Hw2 & Ht2). unfold emitted.
  rewrite Hc2, Hw2, Ht2, Ht1, app_assoc. done.
Qed.

Lemma emitted_emit (e : Event) (s : St) : emitted s (emit_st e s) [e].
Proof. done. Qed.

Lemma emitted_set_rng (g : Random.Rng) (s : St) : emitted s (set_rng g s) [].
Proof. unfold emitted. simpl. by rewrite app_nil_r. Qed.

Lemma create_scene_clip_eq (w : World) (settings : Settings) (video_files : list string)
    (scene : Scene) (output_path : string) (s : St) :
  _create_scene_clip w settings video_files scene output_path s =
  match pick_scene_vids video_files (type scene) (rng s) with
  | Ret scene_vids g' =>
      let command := scene_command settings (video_info_cache s) scene scene_vids output_path in
      Ret tt (emit_st (Render command (returncode (ffmpeg w command))) (set_rng g' s))
  | Raise e g' => Raise e (set_rng g' s)
  end.
Proof.
  unfold _create_scene_clip, se_bind, with_random.
  destruct (pick_scene_vids video_files (type scene) (rng s)); reflexivity.
Qed.

Lemma render_scenes_cons (w : World) (settings : Settings) (video_files : list string)
    (td : string) (n i : nat) (scene : Scene) (rest : list Scene) (s : St) :
  render_scenes w settings video_files td n i (scene :: rest) s =
  match progress_percent i n with
  | inl e => Raise e s
  | inr p =>
      match _create_scene_clip w settings video_files scene (clip_path td i)
              (emit_st (Progress p (stage_text i n scene)) s) with
      | Ret _ s1 =>
          match render_scenes w settings video_files td n (S i) rest s1 with
          | Ret clip_paths s2 => Ret (clip_path td i :: clip_paths) s2
          | Raise e s2 => Raise e s2
          end
      | Raise e s1 => Raise e s1
      end
  end.
Proof.
  simpl. unfold se_bind at 1. unfold lift_exn.
  destruct (progress_percent i n) as [e|p]; [reflexivity|].
  unfold se_ret at 1. unfold se_bind at 1. unfold emit at 1, modify at 1.
  unfold se_bind at 1. fold (clip_path td i).
  destruct (_create_scene_clip _ _ _ _ _ _) as [[] s1|e s1]; [|reflexivity].
  unfold se_bind.
  destruct (render_scenes w settings video_files td n (S i) rest s1); reflexivity.
Qed.

(** STAGE 1 over a non-empty pool runs to its end: it returns the clip
    paths in index order and adds, per scene, the progress signal and the
    transcoder run. *)
Lemma render_scenes_spec (w : World) (settings : Settings) (video_files : list string)
    (td : string) (n : nat) :
  video_files <> [] -> Z.of_nat n < 2 ^ 53 ->
  forall (scenes : list Scene) (i : nat) (s : St),
    (i + length scenes <= n)%nat ->
    exists picks s',
      render_scenes w settings video_files td n i scenes s
        = Ret (map (clip_path td) (seq i (length scenes))) s' /\
      Forall2 (fun scene scene_vids =>
                 length scene_vids = req_vids (type scene) /\
                 forall v, v ∈ scene_vids -> v ∈ video_files) scenes picks /\
      emitted s s' (scene_events w settings (video_info_cache s) td n i scenes picks).
Proof.
  intros Hpool Hn. induction scenes as [|scene rest IH]; intros i s Hlen.
  - exists [], s. split; [reflexivity|]. split; [constructor | apply emitted_refl].
  - simpl in Hlen. rewrite render_scenes_cons.
    rewrite (progress_percent_percent i n) by lia.
    rewrite create_scene_clip_eq.
    destruct (pick_scene_vids_spec video_files (type scene)
                (rng (emit_st (Progress (percent i n) (stage_text i n scene)) s)) Hpool)
      as (scene_vids & g' & Hrun & Hcount & Hfrom & _).
    rewrite Hrun. cbv zeta.
    set (s1 := emit_st _ (set_rng g' _)).
    destruct (IH (S i) s1 ltac:(lia)) as (picks & s' & Hrest & Hpicks & Hem).
    rewrite Hrest. exists (scene_vids :: picks), s'.
    split; [reflexivity|]. split; [by constructor|].
    destruct Hem as (Hc & Hw & Ht). unfold emitted.
    rewrite Hc, Hw, Ht. split; [done|]. split; [done|].
    unfold s1. simpl. rewrite <- !app_assoc. reflexivity.
Qed.

Lemma for_each_emit {A} (f : A -> Event) (l : list A) :
  forall s : St, exists s', for_each l (fun x => emit (f x)) s = Ret tt s' /\
                            rng s' = rng s /\ emitted s s' (map f l).
Proof.
  induction l as [|x l IH]; intros s; simpl.
  - exists s. split; [reflexivity|]. split; [reflexivity | apply emitted_refl].
  - unfold se_bind at 1. unfold emit at 1. unfold modify at 1.
    destruct (IH (emit_st (f x) s)) as (s' & -> & Hrng & Hem).
    exists s'. split; [reflexivity|]. split; [done|].
    apply (emitted_trans _ _ _ [f x] _ (emitted_emit (f x) s) Hem).
Qed.

(** STAGE 2 always runs to its end. *)
Lemma concatenate_spec (w : World) (settings : Settings) (td : string)
    (clip_paths : list string) (s : St) :
  exists s',
    concatenate w settings td clip_paths s = Ret tt s' /\
    emitted s s' (concat_events settings td clip_paths
                    (ffmpeg w (final_command settings (PosixPath.join td "concat_list.txt")))).
Proof.
  unfold concatenate, concat_events.
  set (process := ffmpeg w _).
  unfold se_bind at 1. unfold emit at 1, modify at 1.
  unfold se_bind at 1. unfold emit at 1, modify at 1.
  unfold se_bind at 1. unfold emit at 1, modify at 1.
  unfold se_bind at 1. unfold emit at 1, modify at 1.
  unfold se_bind at 1.
  set (s4 := emit_st _ (emit_st _ (emit_st _ (emit_st _ s)))).
  destruct (for_each_emit (fun line => LogMessage (Text.strip line)) (output process) s4)
    as (s5 & -> & _ & Hc5 & Hw5 & Ht5).
  destruct (returncode process =? 0).
  - unfold se_bind, emit, modify. eexists. split; [reflexivity|].
    unfold emitted. simpl. rewrite Hc5, Hw5, Ht5. unfold s4. simpl.
    split; [done|]. split; [done|]. by rewrite <- !app_assoc.
  - unfold emit, modify. eexists. split; [reflexivity|].
    unfold emitted. simpl. rewrite Hc5, Hw5, Ht5. unfold s4. simpl.
    split; [done|]. split; [done|]. by rewrite <- !app_assoc.
Qed.

Lemma run_try_eq (w : World) (settings : Settings) (video_files : list string)
    (ffprobe_path : string) (s0 : St) :
  run_try w settings video_files ffprobe_path s0 =
  match _cache_video_info w video_files ffprobe_path (prelude settings s0) with
  | Raise e s1 => Raise e s1
  | Ret _ s1 =>
      match _plan_scenes settings (rng s1) with
      | Raise e g' => Raise e (set_rng g' s1)
      | Ret [] g' => Ret tt (emit_st (Finished plan_failed false) (set_rng g' s1))
      | Ret scenes g' =>
          match render_scenes w settings video_files (temp_dir settings) (length scenes) 0 scenes
                  (set_rng g' s1) with
          | Ret clip_paths s3 => concatenate w settings (temp_dir settings) clip_paths s3
          | Raise e s3 => Raise e s3
          end
      end
  end.
Proof.
  unfold run_try.
  unfold se_bind at 1. unfold emit at 1, modify at 1.
  unfold se_bind at 1. unfold emit at 1, modify at 1.
  unfold se_bind at 1. unfold modify at 1.
  unfold se_bind at 1. unfold emit at 1, modify at 1.
  unfold se_bind at 1. fold (prelude settings s0).
  destruct (_cache_video_info w video_files ffprobe_path (prelude settings s0)) as [[] s1|e s1];
    [|reflexivity].
  unfold se_bind at 1. unfold with_random.
  destruct (_plan_scenes settings (rng s1)) as [scenes g'|e g']; [|reflexivity].
  destruct scenes as [|scene rest]; [reflexivity|].
  unfold se_bind. reflexivity.
Qed.

Lemma prelude_emitted (settings : Settings) (s : St) :
  trace (prelude settings s) = trace s ++ prelude_events settings /\
  workspace_exists (prelude settings s) = true /\
  rng (prelude settings s) = rng s /\
  video_info_cache (prelude settings s) = video_info_cache s.
Proof. unfold prelude. simpl. rewrite <- !app_assoc. done. Qed.

Lemma probes_ok_returned (w : World) (ffprobe_path : string) (video_files : list string) :
  probes_ok w ffprobe_path video_files ->
  forall s, returned (_cache_video_info w video_files ffprobe_path s) = true.
Proof.
  induction video_files as [|vid rest IH]; intros Hok s.
  - reflexivity.
  - rewrite cache_video_info_cons.
    assert (Hrest : probes_ok w ffprobe_path rest).
    { intros p Hp. apply Hok. by apply list_elem_of_further. }
    destruct (video_info_cache s !! vid); [by apply IH|].
    destruct (Hok vid ltac:(apply list_elem_of_here)) as [info ->]. by apply IH.
Qed.

(** ** Whole runs *)

Lemma run_removes_workspace (w : World) (settings : Settings) (video_files : list string)
    (ffprobe_path : string) (s0 : St) :
  workspace_exists (run w settings video_files ffprobe_path s0) = false.
Proof.
  unfold run.
  destruct (run_try w settings video_files ffprobe_path s0) as [[] s|e s]; simpl;
    destruct (workspace_exists s) eqn:E; simpl; done.
Qed.

Lemma run_of_try (w : World) (settings : Settings) (video_files : list string)
    (ffprobe_path : string) (s0 s : St) (evs : list Event) :
  workspace_exists s = true ->
  (run_try w settings video_files ffprobe_path s0 = Ret tt s /\ evs = []) \/
  (exists e, run_try w settings video_files ffprobe_path s0 = Raise e s /\
             evs = [Finished (ErrorReport e) false]) ->
  trace (run w settings video_files ffprobe_path s0)
    = trace s ++ evs ++ [RmTree (temp_dir settings)].
Proof.
  intros Hws [[Htry ->]|(e & Htry & ->)]; unfold run; rewrite Htry; simpl; rewrite Hws; simpl.
  - reflexivity.
  - by rewrite <- app_assoc.
Qed.

(** A probe that raises ends the run with an error report. *)
Lemma run_probe_raises (w : World) (settings : Settings) (video_files : list string)
    (ffprobe_path : string) (s0 : St) :
  returned (_cache_video_info w video_files ffprobe_path (prelude settings s0)) = false ->
  exists probed e,
    NoDup probed /\
    trace (run w settings video_files ffprobe_path s0)
      = trace s0 ++ prelude_events settings ++ map (probe_event w ffprobe_path) probed
        ++ [Finished (ErrorReport e) false; RmTree (temp_dir settings)].
Proof.
  intros Hraise.
  destruct (cache_video_info_spec w ffprobe_path video_files (prelude settings s0))
    as (probed & Htr & _ & Hws & Hnd & _).
  destruct (prelude_emitted settings s0) as (Hptr & Hpws & _).
  destruct (_cache_video_info w video_files ffprobe_path (prelude settings s0)) as [[] s1|e s1] eqn:Hc;
    [discriminate|].
  cbn [final] in Htr, Hws. exists probed, e. split; [done|].
  rewrite (run_of_try w settings video_files ffprobe_path s0 s1 [Finished (ErrorReport e) false]).
  - rewrite Htr, Hptr. by rewrite <- !app_assoc.
  - congruence.
  - right. exists e. split; [|done]. by rewrite run_try_eq, Hc.
Qed.

(** An empty plan ends the run with the planning failure. *)
Lemma run_plan_empty (w : World) (settings : Settings) (video_files : list string)
    (ffprobe_path : string) (s0 : St) (g' : Random.Rng) :
  returned (_cache_video_info w video_files ffprobe_path (prelude settings s0)) = true ->
  _plan_scenes settings (rng s0) = Ret [] g' ->
  exists probed,
    NoDup probed /\
    trace (run w settings video_files ffprobe_path s0)
      = trace s0 ++ prelude_events settings ++ map (probe_event w ffprobe_path) probed
        ++ [Finished plan_failed false; RmTree (temp_dir settings)].
Proof.
  intros Hret Hplan.
  destruct (cache_video_info_spec w ffprobe_path video_files (prelude settings s0))
    as (probed & Htr & Hrng & Hws & Hnd & _).
  destruct (prelude_emitted settings s0) as (Hptr & Hpws & Hprng & _).
  destruct (_cache_video_info w video_files ffprobe_path (prelude settings s0)) as [[] s1|e s1] eqn:Hc;
    [|discriminate].
  cbn [final] in Htr, Hws, Hrng. exists probed. split; [done|].
  rewrite (run_of_try w settings video_files ffprobe_path s0
             (emit_st (Finished plan_failed false) (set_rng g' s1)) []).
  - simpl. rewrite Htr, Hptr. by rewrite <- !app_assoc.
  - simpl. congruence.
  - left. split; [|done]. rewrite run_try_eq, Hc, Hrng, Hprng, Hplan. reflexivity.
Qed.

(** A non-empty plan over a non-empty pool is rendered and concatenated in
    full. *)
Lemma run_full (w : World) (settings : Settings) (video_files : list string)
    (ffprobe_path : string) (s0 : St) (scenes : list Scene) (g' : Random.Rng) :
  video_files <> [] ->
  returned (_cache_video_info w video_files ffprobe_path (prelude settings s0)) = true ->
  _plan_scenes settings (rng s0) = Ret scenes g' ->
  scenes <> [] -> Z.of_nat (length scenes) < 2 ^ 53 ->
  exists probed picks cache,
    NoDup probed /\
    Forall2 (fun scene scene_vids =>
               length scene_vids = req_vids (type scene) /\
               forall v, v ∈ scene_vids -> v ∈ video_files) scenes picks /\
    trace (run w settings video_files ffprobe_path s0)
      = trace s0 ++ prelude_events settings ++ map (probe_event w ffprobe_path) probed
        ++ scene_events w settings cache (temp_dir settings) (length scenes) 0 scenes picks
        ++ concat_events settings (temp_dir settings)
             (map (clip_path (temp_dir settings)) (seq 0 (length scenes)))
             (concat_process w settings)
        ++ [RmTree (temp_dir settings)].
Proof.
  intros Hpool Hret Hplan Hne Hn.
  destruct (cache_video_info_spec w ffprobe_path video_files (prelude settings s0))
    as (probed & Htr & Hrng & Hws & Hnd & _).
  destruct (prelude_emitted settings s0) as (Hptr & Hpws & Hprng & _).
  destruct (_cache_video_info w video_files ffprobe_path (prelude settings s0)) as [[] s1|e s1] eqn:Hc;
    [|discriminate].
  cbn [final] in Htr, Hws, Hrng.
  destruct (render_scenes_spec w settings video_files (temp_dir settings) (length scenes)
              Hpool Hn scenes 0%nat (set_rng g' s1) ltac:(lia))
    as (picks & s3 & Hrender & Hpicks & Hc3 & Hw3 & Ht3).
  destruct (concatenate_spec w settings (temp_dir settings)
              (map (clip_path (temp_dir settings)) (seq 0 (length scenes))) s3)
    as (s4 & Hconcat & Hc4 & Hw4 & Ht4).
  exists probed, picks, (video_info_cache s1). split; [done|]. split; [done|].
  rewrite (run_of_try w settings video_files ffprobe_path s0 s4 []).
  - rewrite Ht4, Ht3. simpl trace. rewrite Htr, Hptr. fold (concat_process w settings).
    by rewrite <- !app_assoc.
  - rewrite Hw4, Hw3. simpl. congruence.
  - left. split; [|done]. rewrite run_try_eq, Hc, Hrng, Hprng, Hplan.
    destruct scenes as [|scene rest]; [done|]. rewrite Hrender. exact Hconcat.
Qed.

Lemma plan_length (settings : Settings) (g : Random.Rng) :
  0 < scene_duration settings -> 0 <= total_duration settings ->
  exists scenes g',
    _plan_scenes settings g = Ret scenes g' /\
    Z.of_nat (length scenes) = total_duration settings / scene_duration settings.
Proof.
  intros Hsd Htotal.
  destruct (plan_scenes_returns settings g) as (scenes & g' & Hrun & Hlen & _).
  exists scenes, g'. split; [done|]. rewrite Hlen.
  destruct (Z.leb_spec (scene_duration settings) 0); [lia|].
  rewrite Z2Nat.id; [done|]. apply Z.div_pos; lia.
Qed.

(** The run of a fresh worker over a non-empty pool, with settings that
    plan at least one scene. *)
Lemma run_planned (w : World) (settings : Settings) (video_files : list string)
    (ffprobe_path : string) (g : Random.Rng) (ws : bool) :
  video_files <> [] -> probes_ok w ffprobe_path video_files ->
  0 < scene_duration settings ->
  scene_duration settings <= total_duration settings < 2 ^ 53 ->
  exists scenes g' probed picks cache,
    _plan_scenes settings g = Ret scenes g' /\
    Z.of_nat (length scenes) = total_duration settings / scene_duration settings /\
    (0 < length scenes)%nat /\
    Z.of_nat (length scenes) < 2 ^ 53 /\
    Forall2 (fun scene scene_vids =>
               length scene_vids = req_vids (type scene) /\
               forall v, v ∈ scene_vids -> v ∈ video_files) scenes picks /\
    trace (run w settings video_files ffprobe_path (initial g ws))
      = prelude_events settings ++ map (probe_event w ffprobe_path) probed
        ++ scene_events w settings cache (temp_dir settings) (length scenes) 0 scenes picks
        ++ concat_events settings (temp_dir settings)
             (map (clip_path (temp_dir settings)) (seq 0 (length scenes)))
             (concat_process w settings)
        ++ [RmTree (temp_dir settings)].
Proof.
  intros Hpool Hok Hsd Htotal.
  destruct (plan_length settings g Hsd ltac:(lia)) as (scenes & g' & Hrun & Hlen).
  assert (Hn1 : 1 <= total_duration settings / scene_duration settings)
    by (apply Z.div_le_lower_bound; lia).
  assert (Hn2 : total_duration settings / scene_duration settings < 2 ^ 53).
  { apply Z.div_lt_upper_bound; [lia|]. nia. }
  assert (Hne : scenes <> []) by (intros ->; simpl in Hlen; lia).
  destruct (run_full w settings video_files ffprobe_path (initial g ws) scenes g' Hpool
              (probes_ok_returned w ffprobe_path video_files Hok _) Hrun Hne ltac:(lia))
    as (probed & picks & cache & _ & Hpicks & Ht).
  exists scenes, g', probed, picks, cache.
  split; [exact Hrun|]. split; [exact Hlen|]. split; [lia|]. split; [lia|].
  split; [exact Hpicks|]. exact Ht.
Qed.

(** *** Reading a trace *)

Lemma omap_map_none {A B C} (f : B -> option C) (g : A -> B) (l : list A) :
  (forall x, f (g x) = None) -> omap f (map g l) = [].
Proof. intros H. induction l as [|x l IH]; simpl; [done|]. by rewrite H. Qed.

Lemma progress_of_app (a b : list Event) : progress_of (a ++ b) = progress_of a ++ progress_of b.
Proof. apply omap_app. Qed.
Lemma renders_of_app (a b : list Event) : renders_of (a ++ b) = renders_of a ++ renders_of b.
Proof. apply omap_app. Qed.
Lemma concats_of_app (a b : list Event) : concats_of (a ++ b) = concats_of a ++ concats_of b.
Proof. apply omap_app. Qed.
Lemma probes_of_app (a b : list Event) : probes_of (a ++ b) = probes_of a ++ probes_of b.
Proof. apply omap_app. Qed.
Lemma manifests_of_app (a b : list Event) : manifests_of (a ++ b) = manifests_of a ++ manifests_of b.
Proof. apply omap_app. Qed.
Lemma finished_of_app (a b : list Event) : finished_of (a ++ b) = finished_of a ++ finished_of b.
Proof. apply omap_app. Qed.


Lemma scene_events_renders (w : World) (settings : Settings) (cache : gmap string MediaInfo)
    (td : string) (n : nat) (scenes : list Scene) (picks : list (list string)) :
  forall i, renders_of (scene_events w settings cache td n i scenes picks)
            = scene_renders w settings cache td i scenes picks.
Proof.
  revert picks. induction scenes as [|scene rest IH]; intros [|vids picks] i;
    try reflexivity.
  simpl. f_equal. apply IH.
Qed.

Lemma scene_events_others (w : World) (settings : Settings) (cache : gmap string MediaInfo)
    (td : string) (n : nat) (scenes : list Scene) (picks : list (list string)) :
  forall i,
    let evs := scene_events w settings cache td n i scenes picks in
    manifests_of evs = [] /\ finished_of evs = [] /\ concats_of evs = [] /\ probes_of evs = [].
Proof.
  revert picks. induction scenes as [|scene rest IH]; intros [|vids picks] i; try done.
  simpl. apply IH.
Qed.

Lemma probe_events_read (w : World) (ffprobe_path : string) (probed : list string) :
  let evs := map (probe_event w ffprobe_path) probed in
  progress_of evs = [] /\ renders_of evs = [] /\ manifests_of evs = [] /\
  finished_of evs = [] /\ concats_of evs = [] /\
  probes_of evs = map (fun p => probe_command p ffprobe_path) probed.
Proof.
  simpl. repeat split; try (by apply omap_map_none).
  induction probed as [|p l IH]; simpl; [done|]. f_equal. exact IH.
Qed.

Lemma concat_events_read (settings : Settings) (td : string) (clip_paths : list string)
    (process : Completed) :
  let evs := concat_events settings td clip_paths process in
  progress_of evs = (95, "Concatenating all scenes...")
                    :: (if returncode process =? 0 then [(100, "Done!")] else []) /\
  renders_of evs = [] /\
  probes_of evs = [] /\
  manifests_of evs = [(PosixPath.join td "concat_list.txt", map manifest_line clip_paths)] /\
  concats_of evs = [(final_command settings (PosixPath.join td "concat_list.txt"),
                     returncode process)] /\
  exists message, finished_of evs = [(message, returncode process =? 0)].
Proof.
  unfold concat_events. cbv zeta.
  unfold progress_of, renders_of, probes_of, manifests_of, concats_of, finished_of.
  rewrite !omap_app. simpl.
  rewrite !omap_map_none by done. simpl.
  destruct (returncode process =? 0); simpl; repeat split; eauto.
Qed.

(** ** Paths and file names *)

Lemma string_app_assoc (a b c : string) : (a +:+ b) +:+ c = a +:+ (b +:+ c).
Proof.
  induction a as [|x a IH]; [reflexivity|].
  change (String x ((a +:+ b) +:+ c) = String x (a +:+ (b +:+ c))). by rewrite IH.
Qed.

Lemma has_sep_app (a b : string) :
  PosixPath.has_sep (a +:+ b) = PosixPath.has_sep a || PosixPath.has_sep b.
Proof.
  induction a as [|c a IH]; simpl; [reflexivity|]. rewrite IH. by rewrite orb_assoc.
Qed.

Lemma basename_no_sep (b : string) : PosixPath.has_sep b = false -> PosixPath.basename b = b.
Proof.
  destruct b as [|c b]; simpl; [done|].
  intros H. apply orb_false_iff in H as [Hc Hb]. by rewrite Hb, Hc.
Qed.

Lemma basename_after_sep (a b : string) :
  PosixPath.has_sep b = false -> PosixPath.basename (a +:+ String "/" b) = b.
Proof.
  intros Hb. induction a as [|c a IH]; simpl.
  - by rewrite Hb.
  - rewrite has_sep_app. simpl. rewrite orb_true_r. exact IH.
Qed.

Lemma ends_with_sep_split (a : string) :
  PosixPath.ends_with_sep a = true -> exists a0, a = a0 +:+ "/".
Proof.
  induction a as [|c a IH]; simpl; [done|].
  destruct a as [|c' a'].
  - intros Hc. unfold PosixPath.is_sep in Hc. apply bool_decide_eq_true in Hc as ->.
    by exists EmptyString.
  - intros H. destruct (IH H) as [a0 ->]. by exists (String c a0).
Qed.

Lemma starts_with_sep_no_sep (b : string) :
  PosixPath.has_sep b = false -> PosixPath.starts_with_sep b = false.
Proof. destruct b as [|c b]; simpl; [done|]. intros H. by apply orb_false_iff in H as [-> _]. Qed.

(** [basename] undoes [join] on a name without separator. *)
Lemma basename_join (a b : string) :
  PosixPath.has_sep b = false -> PosixPath.basename (PosixPath.join a b) = b.
Proof.
  intros Hb. unfold PosixPath.join. rewrite (starts_with_sep_no_sep b Hb).
  destruct (bool_decide (a = EmptyString)) eqn:Ha; simpl.
  - apply bool_decide_eq_true in Ha as ->. simpl. by apply basename_no_sep.
  - destruct (PosixPath.ends_with_sep a) eqn:Hend.
    + destruct (ends_with_sep_split a Hend) as [a0 ->].
      rewrite string_app_assoc. simpl. by apply basename_after_sep.
    + simpl. by apply basename_after_sep.
Qed.

Lemma pretty_N_char_no_sep (x : N) : PosixPath.is_sep (pretty_N_char x) = false.
Proof. unfold pretty_N_char. by repeat case_match. Qed.

Lemma pretty_N_go_no_sep (x : N) :
  forall s, PosixPath.has_sep (pretty_N_go x s) = PosixPath.has_sep s.
Proof.
  induction (N.lt_wf_0 x) as [x _ IH]. intros s.
  destruct (decide (x = 0)%N) as [->|Hx].
  - by rewrite pretty_N_go_0.
  - rewrite pretty_N_go_step by lia. rewrite IH by (apply N.div_lt; lia).
    simpl. by rewrite pretty_N_char_no_sep.
Qed.

Lemma str_nat_no_sep (i : nat) : PosixPath.has_sep (Text.str_nat i) = false.
Proof.
  unfold Text.str_nat, pretty, pretty_nat, pretty, pretty_N.
  case_decide; [reflexivity|]. by rewrite pretty_N_go_no_sep.
Qed.

Lemma zeros_no_sep (k : nat) : PosixPath.has_sep (Text.zeros k) = false.
Proof. induction k as [|k IH]; simpl; [done|]. exact IH. Qed.

Lemma clip_name_no_sep (i : nat) : PosixPath.has_sep (clip_name i) = false.
Proof.
  unfold clip_name, Text.format_04d.
  rewrite !has_sep_app, zeros_no_sep, str_nat_no_sep. reflexivity.
Qed.



(** *** Probes over a whole run *)

Lemma render_scenes_probes (w : World) (settings : Settings) (video_files : list string)
    (td : string) (n : nat) (scenes : list Scene) :
  forall i s,
    probes_of (trace (final (render_scenes w settings video_files td n i scenes s)))
    = probes_of (trace s).
Proof.
  induction scenes as [|scene rest IH]; intros i s; [reflexivity|].
  rewrite render_scenes_cons.
  destruct (progress_percent i n) as [e|p]; [reflexivity|].
  rewrite create_scene_clip_eq.
  destruct (pick_scene_vids video_files (type scene) _) as [vids g'|e g'].
  - cbv beta iota zeta.
    match goal with
    | |- context [render_scenes ?x1 ?x2 ?x3 ?x4 ?x5 ?x6 ?x7 ?x8] =>
        specialize (IH x6 x8);
        destruct (render_scenes x1 x2 x3 x4 x5 x6 x7 x8) as [paths s2|err s2]
    end; cbn [final] in *; rewrite IH; simpl; rewrite !probes_of_app; simpl;
      by rewrite !app_nil_r.
  - simpl. rewrite probes_of_app. simpl. by rewrite app_nil_r.
Qed.

Lemma run_try_probes (w : World) (settings : Settings) (video_files : list string)
    (ffprobe_path : string) (s0 : St) :
  probes_of (trace (final (run_try w settings video_files ffprobe_path s0)))
  = probes_of (trace (final (_cache_video_info w video_files ffprobe_path (prelude settings s0)))).
Proof.
  rewrite run_try_eq.
  destruct (_cache_video_info w video_files ffprobe_path (prelude settings s0)) as [[] s1|e s1];
    [|reflexivity].
  destruct (plan_scenes_returns settings (rng s1)) as (scenes & g' & -> & _).
  destruct scenes as [|scene rest].
  - simpl. rewrite probes_of_app. simpl. by rewrite app_nil_r.
  - pose proof (render_scenes_probes w settings video_files (temp_dir settings)
                  (length (scene :: rest)) (scene :: rest) 0%nat (set_rng g' s1)) as Hr.
    destruct (render_scenes _ _ _ _ _ _ _ _) as [paths s3|e s3]; cbn [final] in Hr.
    + destruct (concatenate_spec w settings (temp_dir settings) paths s3)
        as (s4 & -> & _ & _ & Ht4).
      cbn [final]. rewrite Ht4, probes_of_app.
      destruct (concat_events_read settings (temp_dir settings) paths
                  (ffmpeg w (final_command settings
                               (PosixPath.join (temp_dir settings) "concat_list.txt"))))
        as (_ & _ & -> & _).
      by rewrite app_nil_r.
    + exact Hr.
Qed.

Lemma probe_command_inj (ffprobe_path : string) :
  Inj (=) (=) (fun p => probe_command p ffprobe_path).
Proof. intros p q H. unfold probe_command in H. by inversion H. Qed.

(** Over a whole run, whatever its outcome, the prober is started once for
    each file of the pool that the cache does not know yet, and for nothing
    else. *)
Lemma run_probes (w : World) (settings : Settings) (video_files : list string)
    (ffprobe_path : string) (s0 : St) :
  exists probed,
    NoDup probed /\
    (forall p, p ∈ probed -> p ∈ video_files /\ video_info_cache s0 !! p = None) /\
    probes_of (trace (run w settings video_files ffprobe_path s0))
      = probes_of (trace s0) ++ map (fun p => probe_command p ffprobe_path) probed.
Proof.
  destruct (cache_video_info_spec w ffprobe_path video_files (prelude settings s0))
    as (probed & Htr & _ & _ & Hnd & Hin & _).
  exists probed. split; [done|]. split; [exact Hin|].
  assert (Htry : probes_of (trace (final (run_try w settings video_files ffprobe_path s0)))
                 = probes_of (trace s0) ++ map (fun p => probe_command p ffprobe_path) probed).
  { rewrite run_try_probes, Htr, probes_of_app.
    destruct (probe_events_read w ffprobe_path probed) as (_ & _ & _ & _ & _ & ->).
    destruct (prelude_emitted settings s0) as (-> & _).
    rewrite probes_of_app. simpl. by rewrite app_nil_r. }
  unfold run.
  destruct (run_try w settings video_files ffprobe_path s0) as [[] s|e s]; cbn [final] in Htry;
    destruct (workspace_exists _); simpl; rewrite ?probes_of_app; simpl;
    rewrite ?probes_of_app, ?app_nil_r; simpl; rewrite ?app_nil_r; exact Htry.
Qed.

(** ** C7: probe failures and memoisation *)

(** What does hold of C7 on every run. For the three failures that the
    [except] clause foresees (a non-zero exit status, output that is not
    JSON, an object without [streams]) [get_media_info] answers
    [has_audio = False] and raises nothing. When [_cache_video_info]
    returns, every file of the pool is cached, with the value it already
    had or with the answer of its single probe. Over a whole run from a
    fresh worker no probe command is started twice, and every probe is for
    a file of the pool. *)
Lemma probe_failures_and_memo (w : World) (ffprobe_path : string) :
  (forall filepath s,
      let reply := ffprobe w (probe_command filepath ffprobe_path) in
      probe_returncode reply <> 0 \/
      probe_stdout reply = None \/
      (exists info, probe_stdout reply = Some (JObject info) /\
                    dict_get "streams" info = None) ->
      get_media_info w filepath ffprobe_path s
      = Ret {| has_audio := false |} (emit_st (probe_event w ffprobe_path filepath) s)) /\
  (forall video_files s,
      let r := _cache_video_info w video_files ffprobe_path s in
      returned r = true ->
      forall p, p ∈ video_files ->
        exists info,
          video_info_cache (final r) !! p = Some info /\
          (video_info_cache s !! p = Some info \/
           (video_info_cache s !! p = None /\ probe_result w ffprobe_path p = inr info))) /\
  (forall settings video_files g ws,
      let t := trace (run w settings video_files ffprobe_path (initial g ws)) in
      NoDup (probes_of t) /\
      forall c, c ∈ probes_of t ->
        exists p, p ∈ video_files /\ c = probe_command p ffprobe_path).
Proof.
  split; [|split].
  - intros filepath s reply Hfail. rewrite get_media_info_run. unfold probe_result.
    fold reply. by rewrite (probe_failure_is_no_audio reply Hfail).
  - intros video_files s r Hret p Hp.
    destruct (cache_video_info_spec w ffprobe_path video_files s)
      as (probed & _ & _ & _ & _ & Hin & _ & Hall).
    destruct (Hall Hret p Hp) as (info & Hinfo & Hsrc). exists info. split; [exact Hinfo|].
    destruct Hsrc as [Hold|[Hpr Hres]]; [by left|]. right. split; [|done]. by apply Hin.
  - intros settings video_files g ws t.
    destruct (run_probes w settings video_files ffprobe_path (initial g ws))
      as (probed & Hnd & Hin & Ht).
    unfold t. rewrite Ht. simpl. split.
    + exact (@NoDup_fmap_2 _ _ (fun p => probe_command p ffprobe_path)
                           (probe_command_inj ffprobe_path) probed Hnd).
    + intros c Hc. apply list_elem_of_fmap in Hc as (p & -> & Hp).
      exists p. split; [by apply Hin | done].
Qed.

(** C7, at the failing input. The prober exits with status 0 and prints
    the JSON array [[]]: valid JSON, but not an object. [json.loads]
    succeeds, [info.get] raises [AttributeError], and the [except] clause
    of [get_media_info] lists [CalledProcessError], [JSONDecodeError] and
    [KeyError] only, so the error reaches the caller instead of
    [has_audio = False]: [_cache_video_info] stops at that file, caches
    nothing for it and never probes the next one, and the run ends with
    the error report before any scene is planned or rendered. *)
Theorem probe_error_reaches_the_caller :
  let reply := ffprobe array_world (probe_command "a.mp4" "ffprobe") in
  let s0 := initial [] false in
  (probe_returncode reply = 0 /\ probe_stdout reply = Some (JArray [])) /\
  get_media_info array_world "a.mp4" "ffprobe" s0
  = Raise AttributeError (emit_st (Probe (probe_command "a.mp4" "ffprobe") 0) s0) /\
  (let r := _cache_video_info array_world ["a.mp4"; "b.mp4"] "ffprobe" s0 in
   returned r = false /\
   video_info_cache (final r) !! "a.mp4" = None /\
   probes_of (trace (final r)) = [probe_command "a.mp4" "ffprobe"]) /\
  (let t := trace (run array_world settings_2 ["a.mp4"; "b.mp4"] "ffprobe" s0) in
   finished_of t = [(ErrorReport AttributeError, false)] /\
   progress_of t = [] /\ renders_of t = [] /\ concats_of t = []).
Proof. vm_compute. repeat split. Qed.

(** ** C4: the length of the plan, and the planning failure *)

Lemma plan_scenes_non_positive (settings : Settings) (g : Random.Rng) :
  scene_duration settings <= 0 -> _plan_scenes settings g = Ret [] g.
Proof.
  intros Hsd. unfold _plan_scenes.
  destruct (Z.leb_spec (scene_duration settings) 0); [reflexivity | lia].
Qed.

(** C4. With a positive scene duration (and a total duration that is not
    negative) the plan has [total_duration // scene_duration] scenes. With
    a scene duration of zero or less the plan is empty, and a run then
    starts no transcoder, writes no manifest and ends with a single
    [finished] signal whose flag is false; its text is the planning failure
    as soon as probing itself does not raise. *)
Theorem plan_length_and_planning_failure (settings : Settings) :
  (0 < scene_duration settings -> 0 <= total_duration settings ->
   forall g, exists scenes g',
     _plan_scenes settings g = Ret scenes g' /\
     Z.of_nat (length scenes) = total_duration settings / scene_duration settings) /\
  (scene_duration settings <= 0 ->
   (forall g, _plan_scenes settings g = Ret [] g) /\
   forall w video_files ffprobe_path s0,
     exists evs message,
       trace (run w settings video_files ffprobe_path s0) = trace s0 ++ evs /\
       renders_of evs = [] /\ concats_of evs = [] /\ manifests_of evs = [] /\
       finished_of evs = [(message, false)] /\
       (probes_ok w ffprobe_path video_files -> message = plan_failed)).
Proof.
  split.
  - intros Hsd Htotal g. by apply plan_length.
  - intros Hsd. split; [intros g; by apply plan_scenes_non_positive|].
    intros w video_files ffprobe_path s0.
    destruct (returned (_cache_video_info w video_files ffprobe_path (prelude settings s0)))
      eqn:Hret.
    + destruct (run_plan_empty w settings video_files ffprobe_path s0 (rng s0) Hret
                  (plan_scenes_non_positive settings (rng s0) Hsd)) as (probed & _ & Ht).
      destruct (probe_events_read w ffprobe_path probed) as (_ & Hr & Hm & Hf & Hc & _).
      eexists _, plan_failed. split; [exact Ht|].
      rewrite !renders_of_app, !concats_of_app, !manifests_of_app, !finished_of_app.
      rewrite Hr, Hm, Hf, Hc. done.
    + destruct (run_probe_raises w settings video_files ffprobe_path s0 Hret)
        as (probed & e & _ & Ht).
      destruct (probe_events_read w ffprobe_path probed) as (_ & Hr & Hm & Hf & Hc & _).
      eexists _, (ErrorReport e). split; [exact Ht|].
      rewrite !renders_of_app, !concats_of_app, !manifests_of_app, !finished_of_app.
      rewrite Hr, Hm, Hf, Hc. repeat (split; [done|]).
      intros Hok. by rewrite (probes_ok_returned w ffprobe_path video_files Hok) in Hret.
Qed.

Lemma plan_length_and_planning_failure_witness :
  (exists scenes g', _plan_scenes mix_30 [] = Ret scenes g' /\ Z.of_nat (length scenes) = 2) /\
  _plan_scenes settings_0 [7%nat] = Ret [] [7%nat].
Proof.
  split.
  - destruct (plan_length_and_planning_failure mix_30) as [H _].
    destruct (H ltac:(simpl; lia) ltac:(simpl; lia) []) as (scenes & g' & Hrun & Hlen).
    exists scenes, g'. split; [exact Hrun | exact Hlen].
  - destruct (plan_length_and_planning_failure settings_0) as [_ H].
    destruct (H ltac:(simpl; lia)) as [Hplan _]. apply Hplan.
Defined.

(** ** C8: intermediate files and the manifest *)




Lemma fine_world_probes_ok (ffprobe_path : string) (video_files : list string) :
  probes_ok fine_world ffprobe_path video_files.
Proof. intros p _. eexists. reflexivity. Qed.


(** ** C10: progress signals *)








(** ** C3: when the participants of a scene are chosen *)

(** C3 as stated fails: two runs whose planner returned the very same
    scenes render different participants, so the participants are no part
    of what the planner created; they are drawn by the render step, which
    moves the generator on. *)
Lemma plan_does_not_fix_participants :
  ~ (forall g1 g2 scenes g1' g2',
        _plan_scenes settings_1 g1 = Ret scenes g1' ->
        _plan_scenes settings_1 g2 = Ret scenes g2' ->
        participants (trace (run fine_world settings_1 ["a.mp4"; "b.mp4"] "ffprobe"
                               (initial g1 false)))
        = participants (trace (run fine_world settings_1 ["a.mp4"; "b.mp4"] "ffprobe"
                                 (initial g2 false)))) /\
  rng (final (_create_scene_clip fine_world settings_1 ["a.mp4"; "b.mp4"] {| type := Single |}
                "/out/temp_clips/clip_0000.ts" (initial [1%nat; 7%nat] true)))
  = [7%nat].
Proof.
  split; [|reflexivity].
  intros H.
  specialize (H [5%nat; 0%nat] [5%nat; 1%nat] [{| type := Single |}] [0%nat] [1%nat]
                eq_refl eq_refl).
  vm_compute in H. discriminate.
Qed.

(** C3, amended. The planner fixes the layouts only, from the generator as
    the run finds it and before any scene is rendered; the scenes are then
    rendered in plan order, each with as many participants as its layout
    requires (1, 4 or 9), all from the pool. Those participants are drawn
    inside the render step of the scene: [_create_scene_clip] picks them
    from the generator and moves it on. *)
Theorem layouts_planned_participants_drawn_at_render (w : World) (settings : Settings)
    (video_files : list string) (ffprobe_path : string) (g : Random.Rng) (ws : bool) :
  video_files <> [] -> probes_ok w ffprobe_path video_files ->
  0 < scene_duration settings ->
  scene_duration settings <= total_duration settings < 2 ^ 53 ->
  (exists scenes g' picks cache,
      _plan_scenes settings g = Ret scenes g' /\
      Forall2 (fun scene scene_vids =>
                 length scene_vids = req_vids (type scene) /\
                 forall v, v ∈ scene_vids -> v ∈ video_files) scenes picks /\
      renders_of (trace (run w settings video_files ffprobe_path (initial g ws)))
      = scene_renders w settings cache (temp_dir settings) 0 scenes picks) /\
  (forall scene output_path s,
      exists scene_vids g1,
        pick_scene_vids video_files (type scene) (rng s) = Ret scene_vids g1 /\
        length scene_vids = req_vids (type scene) /\
        let command := scene_command settings (video_info_cache s) scene scene_vids output_path in
        _create_scene_clip w settings video_files scene output_path s
        = Ret tt (emit_st (Render command (returncode (ffmpeg w command))) (set_rng g1 s))).
Proof.
  intros Hpool Hok Hsd Htotal. split.
  - destruct (run_planned w settings video_files ffprobe_path g ws Hpool Hok Hsd Htotal)
      as (scenes & g' & probed & picks & cache & Hrun & Hlen & Hpos & Hbig & Hpicks & Ht).
    exists scenes, g', picks, cache. split; [exact Hrun|]. split; [exact Hpicks|].
    destruct (probe_events_read w ffprobe_path probed) as (_ & Hpr & _).
    destruct (concat_events_read settings (temp_dir settings)
                (map (clip_path (temp_dir settings)) (seq 0 (length scenes)))
                (concat_process w settings)) as (_ & Hcr & _).
    rewrite Ht, !renders_of_app, Hpr, Hcr, scene_events_renders. simpl. by rewrite app_nil_r.
  - intros scene output_path s.
    destruct (pick_scene_vids_spec video_files (type scene) (rng s) Hpool)
      as (scene_vids & g1 & Hrun & Hcount & _).
    exists scene_vids, g1. split; [exact Hrun|]. split; [exact Hcount|].
    cbv zeta. rewrite create_scene_clip_eq, Hrun. reflexivity.
Qed.

Lemma layouts_planned_participants_drawn_at_render_witness :
  exists scene_vids g1,
    pick_scene_vids ["a.mp4"; "b.mp4"] Single [1%nat; 7%nat] = Ret scene_vids g1 /\
    length scene_vids = 1%nat.
Proof.
  destruct (layouts_planned_participants_drawn_at_render fine_world settings_1
              ["a.mp4"; "b.mp4"] "ffprobe" [] false
              ltac:(discriminate) (fine_world_probes_ok _ _)
              ltac:(simpl; lia) ltac:(simpl; lia)) as [_ H].
  destruct (H {| type := Single |} "/out/temp_clips/clip_0000.ts" (initial [1%nat; 7%nat] true))
    as (scene_vids & g1 & Hrun & Hcount & _).
  exists scene_vids, g1. split; [exact Hrun | exact Hcount].
Defined.

(** ** C1: exit statuses of the transcoder *)

(** C1, at the failing input. The transcoder exits with 1 while rendering
    scene 0; the run nevertheless renders scene 1, concatenates, and
    reports success. Only the workspace is removed as C1 says. *)
Theorem render_failure_goes_unnoticed :
  let r := run first_render_fails settings_2 ["a.mp4"] "ffprobe" (initial [] false) in
  map (fun c => (last (fst c), snd c)) (renders_of (trace r))
  = [(Some "/out/temp_clips/clip_0000.ts", 1); (Some "/out/temp_clips/clip_0001.ts", 0)] /\
  map snd (concats_of (trace r)) = [0] /\
  finished_of (trace r) = [(Text "Video generation successful!", true)] /\
  workspace_exists r = false.
Proof. vm_compute. repeat split. Qed.

(** What does hold of C1 on every run: a failing final transcoder run is
    reported as a failure, and the workspace is gone at the end. *)
Lemma concat_failure_is_reported (w : World) (settings : Settings) (video_files : list string)
    (ffprobe_path : string) (g : Random.Rng) (ws : bool) :
  video_files <> [] -> probes_ok w ffprobe_path video_files ->
  0 < scene_duration settings ->
  scene_duration settings <= total_duration settings < 2 ^ 53 ->
  returncode (concat_process w settings) <> 0 ->
  let r := run w settings video_files ffprobe_path (initial g ws) in
  (exists message, finished_of (trace r) = [(message, false)]) /\ workspace_exists r = false.
Proof.
  intros Hpool Hok Hsd Htotal Hrc r. split; [|apply run_removes_workspace].
  destruct (run_planned w settings video_files ffprobe_path g ws Hpool Hok Hsd Htotal)
    as (scenes & g' & probed & picks & cache & _ & _ & _ & _ & _ & Ht).
  destruct (probe_events_read w ffprobe_path probed) as (_ & _ & _ & Hpf & _).
  destruct (scene_events_others w settings cache (temp_dir settings) (length scenes) scenes picks 0%nat)
    as (_ & Hsf & _).
  destruct (concat_events_read settings (temp_dir settings)
              (map (clip_path (temp_dir settings)) (seq 0 (length scenes)))
              (concat_process w settings)) as (_ & _ & _ & _ & _ & message & Hcf).
  exists message. unfold r. rewrite Ht, !finished_of_app, Hpf, Hsf, Hcf. simpl.
  destruct (Z.eqb_spec (returncode (concat_process w settings)) 0); [done | reflexivity].
Qed.

(** * Further properties of the worker *)

(** ** The shape of every run *)

Lemma stage1_events_read (evs : list Event) :
  Forall (fun e => stage1_event e = true) evs ->
  finished_of evs = [] /\ concats_of evs = [] /\ manifests_of evs = [] /\ probes_of evs = [].
Proof.
  induction 1 as [|e evs He _ IH]; [done|].
  destruct e; try discriminate; simpl; exact IH.
Qed.

(** STAGE 1, whatever its outcome, adds progress signals and transcoder
    runs only, and leaves the cache and the workspace alone. *)
Lemma render_scenes_stage1 (w : World) (settings : Settings) (video_files : list string)
    (td : string) (n : nat) (scenes : list Scene) :
  forall i s,
    exists evs,
      emitted s (final (render_scenes w settings video_files td n i scenes s)) evs /\
      Forall (fun e => stage1_event e = true) evs.
Proof.
  induction scenes as [|scene rest IH]; intros i s.
  - exists []. split; [apply emitted_refl | constructor].
  - rewrite render_scenes_cons.
    destruct (progress_percent i n) as [e|p].
    { exists []. split; [apply emitted_refl | constructor]. }
    rewrite create_scene_clip_eq.
    set (s0 := emit_st (Progress p (stage_text i n scene)) s).
    destruct (pick_scene_vids video_files (type scene) (rng s0)) as [vids g'|e g'].
    + cbv beta iota zeta.
      set (s1 := emit_st _ (set_rng g' s0)).
      destruct (IH (S i) s1) as (evs & Hem & Hall).
      exists (Progress p (stage_text i n scene)
              :: Render (scene_command settings (video_info_cache (set_rng g' s0)) scene vids
                           (clip_path td i))
                   (returncode (ffmpeg w (scene_command settings (video_info_cache (set_rng g' s0))
                                            scene vids (clip_path td i))))
              :: evs).
      split; [|by repeat constructor].
      destruct (render_scenes w settings video_files td n (S i) rest s1) as [paths s2|err s2];
        cbn [final] in *; destruct Hem as (Hc & Hw & Ht); unfold emitted;
        rewrite Hc, Hw, Ht; unfold s1, s0; simpl; rewrite <- !app_assoc; done.
    + exists [Progress p (stage_text i n scene)]. split; [|by repeat constructor].
      cbn [final]. unfold emitted, s0. simpl. done.
Qed.

(** STAGE 2 ends with the verdict, after one final transcoder run. *)
Lemma concat_events_split (settings : Settings) (td : string) (clip_paths : list string)
    (process : Completed) :
  exists before message,
    concat_events settings td clip_paths process
    = before ++ [Finished message (returncode process =? 0)] /\
    finished_of before = [] /\ renders_of before = [] /\ probes_of before = [] /\
    concats_of before = [(final_command settings (PosixPath.join td "concat_list.txt"),
                          returncode process)] /\
    manifests_of before = [(PosixPath.join td "concat_list.txt", map manifest_line clip_paths)] /\
    (returncode process = 0 -> exists before', before = before' ++ [Progress 100 "Done!"]).
Proof.
  unfold concat_events. cbv zeta.
  destruct (Z.eqb_spec (returncode process) 0) as [Hrc|Hrc].
  - eexists (_ :: _ :: _ :: _ :: map _ (output process) ++ [Progress 100 "Done!"]), _.
    split; [simpl; rewrite <- app_assoc; reflexivity|].
    unfold finished_of, renders_of, probes_of, concats_of, manifests_of. simpl.
    rewrite !omap_app, !omap_map_none by done.
    repeat (split; [done|]). intros _.
    eexists (_ :: _ :: _ :: _ :: map _ (output process)). reflexivity.
  - eexists (_ :: _ :: _ :: _ :: map _ (output process)), _.
    split; [simpl; reflexivity|].
    unfold finished_of, renders_of, probes_of, concats_of, manifests_of. simpl.
    rewrite !omap_map_none by done. done.
Qed.

(** Every run, from any state: after the opening events come probes, then
    STAGE 1 events, then possibly STAGE 2; the verdict is the last signal
    and the removal of the workspace the last event. *)
Lemma run_shape (w : World) (settings : Settings) (video_files : list string)
    (ffprobe_path : string) (s0 : St) :
  exists body message success,
    trace (run w settings video_files ffprobe_path s0)
    = trace s0 ++ prelude_events settings ++ body
      ++ [Finished message success; RmTree (temp_dir settings)] /\
    finished_of body = [] /\
    ((concats_of body = [] /\ manifests_of body = [] /\ success = false) \/
     (exists rc, concats_of body
                 = [(final_command settings
                       (PosixPath.join (temp_dir settings) "concat_list.txt"), rc)] /\
                 success = (rc =? 0) /\
                 (rc = 0 -> exists body', body = body' ++ [Progress 100 "Done!"]))).
Proof.
  destruct (returned (_cache_video_info w video_files ffprobe_path (prelude settings s0))) eqn:Hret.
  2:{ destruct (run_probe_raises w settings video_files ffprobe_path s0 Hret)
        as (probed & e & _ & Ht).
      destruct (probe_events_read w ffprobe_path probed) as (_ & _ & Hm & Hf & Hc & _).
      exists (map (probe_event w ffprobe_path) probed), (ErrorReport e), false.
      split; [exact Ht|]. split; [exact Hf|]. left. done. }
  destruct (plan_scenes_returns settings (rng s0)) as (scenes & g' & Hplan & _).
  destruct scenes as [|scene rest].
  { destruct (run_plan_empty w settings video_files ffprobe_path s0 g' Hret Hplan)
      as (probed & _ & Ht).
    destruct (probe_events_read w ffprobe_path probed) as (_ & _ & Hm & Hf & Hc & _).
    exists (map (probe_event w ffprobe_path) probed), plan_failed, false.
    split; [exact Ht|]. split; [exact Hf|]. left. done. }
  destruct (cache_video_info_spec w ffprobe_path video_files (prelude settings s0))
    as (probed & Htr & Hrng & Hws & _).
  destruct (prelude_emitted settings s0) as (Hptr & Hpws & Hprng & _).
  destruct (probe_events_read w ffprobe_path probed) as (_ & _ & Hpm & Hpf & Hpc & _).
  destruct (_cache_video_info w video_files ffprobe_path (prelude settings s0)) as [[] s1|e s1] eqn:Hc;
    [|discriminate].
  cbn [final] in Htr, Hws, Hrng.
  destruct (render_scenes_stage1 w settings video_files (temp_dir settings)
              (length (scene :: rest)) (scene :: rest) 0%nat (set_rng g' s1))
    as (evs & (_ & Hw3 & Ht3) & Hall).
  destruct (stage1_events_read evs Hall) as (Hsf & Hsc & Hsm & _).
  assert (Htry : run_try w settings video_files ffprobe_path s0
                 = match render_scenes w settings video_files (temp_dir settings)
                           (length (scene :: rest)) 0 (scene :: rest) (set_rng g' s1) with
                   | Ret clip_paths s3 => concatenate w settings (temp_dir settings) clip_paths s3
                   | Raise e s3 => Raise e s3
                   end).
  { rewrite run_try_eq, Hc, Hrng, Hprng, Hplan. reflexivity. }
  destruct (render_scenes w settings video_files (temp_dir settings)
              (length (scene :: rest)) 0 (scene :: rest) (set_rng g' s1))
    as [clip_paths s3|e s3]; cbn [final] in Hw3, Ht3.
  - destruct (concatenate_spec w settings (temp_dir settings) clip_paths s3)
      as (s4 & Hconcat & _ & Hw4 & Ht4).
    destruct (concat_events_split settings (temp_dir settings) clip_paths
                (ffmpeg w (final_command settings
                             (PosixPath.join (temp_dir settings) "concat_list.txt"))))
      as (before & message & Hsplit & Hbf & _ & _ & Hbc & _ & Hdone).
    exists (map (probe_event w ffprobe_path) probed ++ evs ++ before), message,
           (returncode (ffmpeg w (final_command settings
                                    (PosixPath.join (temp_dir settings) "concat_list.txt"))) =? 0).
    split.
    { rewrite (run_of_try w settings video_files ffprobe_path s0 s4 []).
      - rewrite Ht4, Ht3, Hsplit. simpl trace. rewrite Htr, Hptr.
        rewrite <- !app_assoc. reflexivity.
      - rewrite Hw4, Hw3. simpl. congruence.
      - left. split; [|done]. rewrite Htry. exact Hconcat. }
    split; [by rewrite !finished_of_app, Hpf, Hsf, Hbf|].
    right. eexists. split; [by rewrite !concats_of_app, Hpc, Hsc, Hbc|].
    split; [reflexivity|]. intros Hrc. destruct (Hdone Hrc) as [before' ->].
    exists (map (probe_event w ffprobe_path) probed ++ evs ++ before').
    by rewrite <- !app_assoc.
  - exists (map (probe_event w ffprobe_path) probed ++ evs), (ErrorReport e), false.
    split.
    { rewrite (run_of_try w settings video_files ffprobe_path s0 s3
                 [Finished (ErrorReport e) false]).
      - rewrite Ht3. simpl trace. rewrite Htr, Hptr. rewrite <- !app_assoc. reflexivity.
      - rewrite Hw3. simpl. congruence.
      - right. exists e. split; [exact Htry | done]. }
    split; [by rewrite !finished_of_app, Hpf, Hsf|].
    left. by rewrite !concats_of_app, !manifests_of_app, Hpc, Hsc, Hpm, Hsm.
Qed.

(** X1. Whatever the world answers and whatever the settings, the pool
    and the state a run starts in: the run emits its verdict exactly
    once, as its last signal; the only thing that follows is the removal
    of the workspace, which is gone afterwards; and the verdict is a
    success exactly when the final transcoder was started and exited with
    status 0. *)
Theorem run_reports_once_then_cleans_up (w : World) (settings : Settings)
    (video_files : list string) (ffprobe_path : string) (s0 : St) :
  let r := run w settings video_files ffprobe_path s0 in
  exists before message success,
    trace r = trace s0 ++ before ++ [Finished message success; RmTree (temp_dir settings)] /\
    finished_of before = [] /\
    (success = true <->
     concats_of before
     = [(final_command settings (PosixPath.join (temp_dir settings) "concat_list.txt"), 0)]) /\
    workspace_exists r = false.
Proof.
  intros r.
  destruct (run_shape w settings video_files ffprobe_path s0)
    as (body & message & success & Ht & Hf & Hc).
  exists (prelude_events settings ++ body), message, success.
  split; [unfold r; rewrite Ht; by rewrite <- !app_assoc|].
  split; [rewrite finished_of_app, Hf; reflexivity|].
  split; [|apply run_removes_workspace].
  rewrite concats_of_app. change (concats_of (prelude_events settings)) with (@nil (list string * Z)).
  simpl. destruct Hc as [(Hc & _ & ->)|(rc & Hc & -> & _)]; rewrite Hc.
  - split; discriminate.
  - split.
    + intros ->%Z.eqb_eq. reflexivity.
    + intros H. inversion H. reflexivity.
Qed.

(** ** An empty pool *)

Lemma pick_scene_vids_empty (t : SceneType) (g : Random.Rng) :
  pick_scene_vids [] t g = Raise IndexError g.
Proof. destruct t; reflexivity. Qed.

(** X2. A worker started over an empty pool with settings that plan at
    least one scene probes nothing, announces the first scene, and fails
    there: [random.choice] raises [IndexError] on the empty pool, no
    transcoder is started, and the verdict is the error report. *)
Theorem empty_pool_is_an_index_error (w : World) (settings : Settings)
    (ffprobe_path : string) (g : Random.Rng) (ws : bool) :
  0 < scene_duration settings ->
  scene_duration settings <= total_duration settings < 2 ^ 53 ->
  exists scene rest g',
    _plan_scenes settings g = Ret (scene :: rest) g' /\
    trace (run w settings [] ffprobe_path (initial g ws))
    = prelude_events settings
      ++ [Progress (percent 0 (length (scene :: rest)))
                   (stage_text 0 (length (scene :: rest)) scene);
          Finished (ErrorReport IndexError) false;
          RmTree (temp_dir settings)].
Proof.
  intros Hsd Htotal.
  destruct (plan_length settings g Hsd ltac:(lia)) as (scenes & g' & Hplan & Hlen).
  assert (Hn1 : 1 <= total_duration settings / scene_duration settings)
    by (apply Z.div_le_lower_bound; lia).
  assert (Hn2 : total_duration settings / scene_duration settings < 2 ^ 53).
  { apply Z.div_lt_upper_bound; [lia|]. nia. }
  destruct scenes as [|scene rest]; [simpl in Hlen; lia|].
  exists scene, rest, g'. split; [exact Hplan|].
  assert (Hpos : (0 < length (scene :: rest))%nat) by (simpl; lia).
  set (n := length (scene :: rest)) in *.
  set (s2 := emit_st (Progress (percent 0 n) (stage_text 0 n scene))
               (set_rng g' (prelude settings (initial g ws)))).
  rewrite (run_of_try w settings [] ffprobe_path (initial g ws) (set_rng g' s2)
             [Finished (ErrorReport IndexError) false]).
  - reflexivity.
  - reflexivity.
  - right. exists IndexError. split; [|reflexivity].
    rewrite run_try_eq, cache_video_info_nil.
    change (rng (prelude settings (initial g ws))) with g. rewrite Hplan.
    fold n. rewrite render_scenes_cons.
    rewrite (progress_percent_percent 0 n Hpos) by lia.
    rewrite create_scene_clip_eq, pick_scene_vids_empty. reflexivity.
Qed.

Lemma empty_pool_is_an_index_error_witness :
  finished_of (trace (run fine_world settings_2 [] "ffprobe" (initial [] false)))
  = [(ErrorReport IndexError, false)].
Proof.
  destruct (empty_pool_is_an_index_error fine_world settings_2 "ffprobe" [] false
              ltac:(simpl; lia) ltac:(simpl; lia)) as (scene & rest & g' & _ & Ht).
  rewrite Ht. reflexivity.
Defined.

(** ** What the prober answers *)

Lemma probe_result_raises (w : World) (ffprobe_path filepath : string) (e : Exn) :
  probe_result w ffprobe_path filepath = inl e -> e = AttributeError.
Proof.
  unfold probe_result, probe_try.
  destruct (probe_returncode _ =? 0); [|discriminate].
  destruct (probe_stdout _) as [[]|]; simpl; congruence.
Qed.

Lemma cache_video_info_raises (w : World) (ffprobe_path : string) (video_files : list string) :
  forall s e s', _cache_video_info w video_files ffprobe_path s = Raise e s' -> e = AttributeError.
Proof.
  induction video_files as [|vid rest IH]; intros s e s'.
  - rewrite cache_video_info_nil. discriminate.
  - rewrite cache_video_info_cons.
    destruct (video_info_cache s !! vid); [apply IH|].
    destruct (probe_result w ffprobe_path vid) as [e0|info] eqn:Hres; [|apply IH].
    intros H. inversion H; subst. by eapply probe_result_raises.
Qed.

Lemma cache_video_info_stops (w : World) (ffprobe_path : string) (video_files : list string)
    (p : string) (e : Exn) :
  probe_result w ffprobe_path p = inl e ->
  forall s, p ∈ video_files -> video_info_cache s !! p = None ->
            returned (_cache_video_info w video_files ffprobe_path s) = false.
Proof.
  intros Hbad. induction video_files as [|vid rest IH]; intros s Hp Hnone.
  - by apply elem_of_nil in Hp.
  - rewrite cache_video_info_cons.
    destruct (decide (p = vid)) as [->|Hne].
    + rewrite Hnone, Hbad. reflexivity.
    + apply elem_of_cons in Hp as [?|Hp]; [done|].
      destruct (video_info_cache s !! vid); [by apply IH|].
      destruct (probe_result w ffprobe_path vid); [reflexivity|].
      apply IH; [done|]. simpl. by rewrite lookup_insert_ne.
Qed.

(** X3. [get_media_info] does not catch everything: when the prober
    exits with 0 and prints JSON that is not an object (an array, a
    number, [null], ...), [info.get] raises [AttributeError], which the
    [except] clause does not list. A run whose pool holds such a file
    ends with the error report before anything is planned, announced or
    transcoded. *)
Theorem non_object_probe_output_aborts_the_run (w : World) (settings : Settings)
    (video_files : list string) (ffprobe_path : string) (g : Random.Rng) (ws : bool)
    (p : string) (j : Json) :
  p ∈ video_files ->
  probe_returncode (ffprobe w (probe_command p ffprobe_path)) = 0 ->
  probe_stdout (ffprobe w (probe_command p ffprobe_path)) = Some j ->
  (forall info, j <> JObject info) ->
  (forall s, get_media_info w p ffprobe_path s
             = Raise AttributeError (emit_st (probe_event w ffprobe_path p) s)) /\
  let t := trace (run w settings video_files ffprobe_path (initial g ws)) in
  finished_of t = [(ErrorReport AttributeError, false)] /\
  progress_of t = [] /\ renders_of t = [] /\ concats_of t = [].
Proof.
  intros Hp Hrc Hout Hj.
  assert (Hbad : probe_result w ffprobe_path p = inl AttributeError).
  { unfold probe_result, probe_try. rewrite Hrc, Hout. simpl.
    destruct j; try reflexivity. by destruct (Hj members). }
  split; [intros s; by rewrite get_media_info_run, Hbad|].
  pose proof (cache_video_info_stops w ffprobe_path video_files p _ Hbad
                (prelude settings (initial g ws)) Hp (lookup_empty _)) as Hret.
  destruct (cache_video_info_spec w ffprobe_path video_files (prelude settings (initial g ws)))
    as (probed & Htr & _ & Hws & _).
  destruct (_cache_video_info w video_files ffprobe_path (prelude settings (initial g ws)))
    as [[] s1|e s1] eqn:Hc; [discriminate|].
  apply cache_video_info_raises in Hc as He. subst e.
  cbn [final] in Htr, Hws. cbv zeta.
  rewrite (run_of_try w settings video_files ffprobe_path (initial g ws) s1
             [Finished (ErrorReport AttributeError) false]).
  - rewrite Htr.
    destruct (probe_events_read w ffprobe_path probed) as (Hpp & Hpr & _ & Hpf & Hpc & _).
    rewrite !finished_of_app, !progress_of_app, !renders_of_app, !concats_of_app.
    rewrite Hpp, Hpr, Hpf, Hpc. done.
  - by rewrite Hws.
  - right. exists AttributeError. split; [|done]. by rewrite run_try_eq, Hc.
Qed.

Lemma non_object_probe_output_aborts_the_run_witness :
  finished_of (trace (run array_world settings_2 ["a.mp4"] "ffprobe" (initial [] false)))
  = [(ErrorReport AttributeError, false)].
Proof.
  destruct (non_object_probe_output_aborts_the_run array_world settings_2 ["a.mp4"] "ffprobe"
              [] false "a.mp4" (JArray [])
              ltac:(apply list_elem_of_here) eq_refl eq_refl ltac:(discriminate))
    as (_ & H & _).
  exact H.
Defined.

(** X4. [get_media_info] answers [has_audio = True] exactly when the
    prober exits with 0 and prints a JSON object whose [streams] member is
    truthy. In particular the answer of the prober for a file without an
    audio stream, an object with an empty [streams] list, gives
    [has_audio = False] without any exception being involved. *)
Theorem has_audio_iff_streams_truthy (w : World) (filepath ffprobe_path : string) (s : St) :
  let reply := ffprobe w (probe_command filepath ffprobe_path) in
  (get_media_info w filepath ffprobe_path s
   = Ret {| has_audio := true |} (emit_st (probe_event w ffprobe_path filepath) s)
   <-> probe_returncode reply = 0 /\
       exists info, probe_stdout reply = Some (JObject info) /\
                    truthy (dict_get "streams" info) = true) /\
  (forall info items,
      probe_returncode reply = 0 -> probe_stdout reply = Some (JObject info) ->
      dict_get "streams" info = Some (JArray items) ->
      get_media_info w filepath ffprobe_path s
      = Ret {| has_audio := negb (bool_decide (items = [])) |}
            (emit_st (probe_event w ffprobe_path filepath) s)).
Proof.
  intros reply. rewrite get_media_info_run. unfold probe_result, probe_try. fold reply.
  split.
  - split.
    + destruct (Z.eqb_spec (probe_returncode reply) 0) as [Hrc|Hrc]; [|discriminate].
      destruct (probe_stdout reply) as [[]|]; try discriminate.
      cbn [probe_except]. intros H.
      apply (f_equal (fun r => match r with Ret info _ => has_audio info | Raise _ _ => false end))
        in H.
      cbn [has_audio] in H. split; [done|]. eauto.
    + intros (Hrc & info & Hout & Ht). by rewrite Hrc, Hout, Ht.
  - intros info items Hrc Hout Hget. by rewrite Hrc, Hout, Hget.
Qed.

Lemma has_audio_iff_streams_truthy_witness :
  get_media_info fine_world "a.mp4" "ffprobe" (initial [] false)
  = Ret {| has_audio := false |}
        (emit_st (probe_event fine_world "ffprobe" "a.mp4") (initial [] false)) /\
  get_media_info
    {| ffprobe := fun _ => {| probe_returncode := 0;
                              probe_stdout := Some (JObject [("streams", JArray [])]) |};
       ffmpeg := ffmpeg fine_world |} "a.mp4" "ffprobe" (initial [] false)
  = Ret {| has_audio := false |}
        (emit_st (Probe (probe_command "a.mp4" "ffprobe") 0) (initial [] false)).
Proof.
  split; [reflexivity|].
  exact (proj2 (has_audio_iff_streams_truthy
                  {| ffprobe := fun _ => {| probe_returncode := 0;
                                            probe_stdout := Some (JObject [("streams", JArray [])]) |};
                     ffmpeg := ffmpeg fine_world |} "a.mp4" "ffprobe" (initial [] false))
               [("streams", JArray [])] [] eq_refl eq_refl eq_refl).
Defined.

(** ** The cache *)

Lemma cache_video_info_cached (w : World) (ffprobe_path : string) (video_files : list string)
    (s : St) :
  (forall p, p ∈ video_files -> is_Some (video_info_cache s !! p)) ->
  _cache_video_info w video_files ffprobe_path s = Ret tt s.
Proof.
  induction video_files as [|vid rest IH]; intros Hall.
  - apply cache_video_info_nil.
  - rewrite cache_video_info_cons.
    destruct (Hall vid ltac:(apply list_elem_of_here)) as [info Hinfo]. rewrite Hinfo.
    apply IH. intros p Hp. apply Hall. by apply list_elem_of_further.
Qed.

(** X5. [_cache_video_info] is idempotent: once it has returned, calling
    it again on the state it left starts no prober and changes nothing. *)
Theorem cache_video_info_idempotent (w : World) (ffprobe_path : string)
    (video_files : list string) (s s1 : St) :
  _cache_video_info w video_files ffprobe_path s = Ret tt s1 ->
  _cache_video_info w video_files ffprobe_path s1 = Ret tt s1.
Proof.
  intros Hrun. apply cache_video_info_cached. intros p Hp.
  destruct (cache_video_info_spec w ffprobe_path video_files s)     as (probed & _ & _ & _ & _ & _ & _ & Hall).
  rewrite Hrun in Hall. destruct (Hall eq_refl p Hp) as (info & Hinfo & _).
  by exists info.
Qed.

Lemma cache_video_info_idempotent_witness :
  let s1 := final (_cache_video_info fine_world ["a.mp4"; "b.mp4"; "a.mp4"] "ffprobe"
                     (initial [] false)) in
  _cache_video_info fine_world ["a.mp4"; "b.mp4"; "a.mp4"] "ffprobe" s1 = Ret tt s1.
Proof.
  apply (cache_video_info_idempotent fine_world "ffprobe" ["a.mp4"; "b.mp4"; "a.mp4"]
           (initial [] false)).
  vm_compute. reflexivity.
Defined.

(** ** Participants *)

(** X10. When the pool holds exactly as many clips as the layout of a
    scene requires (one, four or nine), the participants of the scene are
    a rearrangement of the whole pool: every clip of the pool is used, as
    often as it is listed. *)
Theorem exact_pool_is_used_in_full (video_files : list string) (t : SceneType)
    (g : Random.Rng) :
  length video_files = req_vids t ->
  exists scene_vids g',
    pick_scene_vids video_files t g = Ret scene_vids g' /\ scene_vids ≡ₚ video_files.
Proof.
  intros Hlen.
  assert (Hne : video_files <> []) by (intros ->; destruct t; discriminate).
  destruct (pick_scene_vids_spec video_files t g Hne)
    as (scene_vids & g' & Hrun & Hcount & _ & Hsample & _).
  exists scene_vids, g'. split; [exact Hrun|].
  destruct (Hsample ltac:(lia)) as (_ & Hsub & _).
  apply submseteq_length_Permutation; [exact Hsub | lia].
Qed.

Lemma exact_pool_is_used_in_full_witness :
  exists scene_vids g',
    pick_scene_vids ["a.mp4"; "b.mp4"; "c.mp4"; "d.mp4"] Grid2x2 [3; 0; 1; 0]%nat
    = Ret scene_vids g' /\
    scene_vids ≡ₚ ["a.mp4"; "b.mp4"; "c.mp4"; "d.mp4"].
Proof.
  apply (exact_pool_is_used_in_full ["a.mp4"; "b.mp4"; "c.mp4"; "d.mp4"] Grid2x2). reflexivity.
Defined.

(** ** The filter graph as a whole *)





(** ** Intermediate files *)

(** X7. What the manifest says about a clip leads back to the clip: the
    line written for the [i]-th intermediate names its base name, and that
    name, resolved against the workspace in which the final transcoder
    runs, is the very path the scene was rendered to. *)
Theorem manifest_entry_resolves_to_the_clip (td : string) (i : nat) :
  manifest_line (clip_path td i)
  = "file '" +:+ PosixPath.basename (clip_path td i) +:+ "'" +:+ nl /\
  PosixPath.join td (PosixPath.basename (clip_path td i)) = clip_path td i /\
  PosixPath.has_sep (PosixPath.basename (clip_path td i)) = false.
Proof.
  split; [reflexivity|].
  unfold clip_path. rewrite basename_join by apply clip_name_no_sep.
  split; [reflexivity | apply clip_name_no_sep].
Qed.

Lemma digit_pretty_N_char (x : N) :
  (x < 10)%N -> Geometry.digit (pretty_N_char x) = Some (Z.of_N x).
Proof.
  intros Hx.
  assert (H : forallb (fun n => bool_decide (Geometry.digit (pretty_N_char (N.of_nat n))
                                             = Some (Z.of_nat n))) (seq 0 10) = true)
    by (vm_compute; reflexivity).
  rewrite forallb_forall in H.
  specialize (H (N.to_nat x) ltac:(apply in_seq; lia)).
  apply bool_decide_eq_true in H. rewrite N2Nat.id in H. rewrite H. f_equal. lia.
Qed.

(** Reading back what [pretty_N_go] prints in front of a text. *)
Lemma parse_digits_pretty_N_go (x : N) :
  exists k, 0 <= k /\
    forall s acc, Geometry.parse_digits (pretty_N_go x s) acc
                  = Geometry.parse_digits s (acc * 10 ^ k + Z.of_N x).
Proof.
  induction (N.lt_wf_0 x) as [x _ IH].
  destruct (decide (x = 0)%N) as [->|Hx].
  - exists 0. split; [lia|]. intros s acc. rewrite pretty_N_go_0. f_equal. lia.
  - destruct (IH (x `div` 10)%N ltac:(apply N.div_lt; lia)) as (k & Hk & Hgo).
    exists (k + 1). split; [lia|]. intros s acc.
    rewrite pretty_N_go_step by lia. rewrite Hgo.
    cbn [Geometry.parse_digits].
    rewrite digit_pretty_N_char by (apply N.mod_upper_bound; lia).
    f_equal. rewrite Z.pow_add_r by lia.
    rewrite (N.div_mod x 10) at 3 by lia.
    rewrite N2Z.inj_add, N2Z.inj_mul. change (Z.of_N 10) with 10. lia.
Qed.

Lemma parse_digits_str_nat (i : nat) :
  Geometry.parse_digits (Text.str_nat i) 0 = Some (Z.of_nat i).
Proof.
  unfold Text.str_nat, pretty, pretty_nat, pretty, pretty_N.
  case_decide as Hi.
  - replace i with 0%nat by lia. reflexivity.
  - destruct (parse_digits_pretty_N_go (N.of_nat i)) as (k & _ & Hgo).
    rewrite Hgo. cbn [Geometry.parse_digits]. f_equal. lia.
Qed.

Lemma parse_digits_zeros (k : nat) (s : string) :
  Geometry.parse_digits (Text.zeros k +:+ s) 0 = Geometry.parse_digits s 0.
Proof. induction k as [|k IH]; [reflexivity|]. exact IH. Qed.

Lemma parse_digits_format_04d (i : nat) :
  Geometry.parse_digits (Text.format_04d i) 0 = Some (Z.of_nat i).
Proof. unfold Text.format_04d. cbv zeta. by rewrite parse_digits_zeros, parse_digits_str_nat. Qed.

Lemma string_app_length (a b : string) :
  String.length (a +:+ b) = (String.length a + String.length b)%nat.
Proof.
  induction a as [|c a IH]; [reflexivity|].
  change (S (String.length (a +:+ b)) = S (String.length a + String.length b)). by rewrite IH.
Qed.

Lemma string_app_inv_tail (a b c : string) : a +:+ c = b +:+ c -> a = b.
Proof.
  revert b. induction a as [|x a IH]; intros [|y b] H.
  - reflexivity.
  - apply (f_equal String.length) in H.
    change (String y b +:+ c) with (String y (b +:+ c)) in H.
    cbn [String.length] in H. rewrite !string_app_length in H. simpl in H. lia.
  - apply (f_equal String.length) in H.
    change (String x a +:+ c) with (String x (a +:+ c)) in H.
    cbn [String.length] in H. rewrite !string_app_length in H. simpl in H. lia.
  - change (String x (a +:+ c) = String y (b +:+ c)) in H.
    injection H as -> H. f_equal. by apply IH.
Qed.

Lemma clip_name_inj (i j : nat) : clip_name i = clip_name j -> i = j.
Proof.
  unfold clip_name. intros H.
  change (String "c" (String "l" (String "i" (String "p" (String "_"
            (Text.format_04d i +:+ ".ts")))))
          = String "c" (String "l" (String "i" (String "p" (String "_"
            (Text.format_04d j +:+ ".ts")))))) in H.
  injection H as H. apply string_app_inv_tail in H.
  pose proof (parse_digits_format_04d i) as Hi. rewrite H, parse_digits_format_04d in Hi.
  injection Hi as Hi. lia.
Qed.

(** X8. The index printed into a clip name reads back as that index,
    however many digits it has, so the clips of different scenes have
    different paths: no scene of a plan overwrites the intermediate of
    another. *)
Theorem clip_paths_are_distinct (td : string) (n : nat) :
  (forall i, Geometry.parse_number (Text.format_04d i) = Some (Z.of_nat i)) /\
  NoDup (map (clip_path td) (seq 0 n)).
Proof.
  split.
  - intros i. pose proof (parse_digits_format_04d i) as H.
    unfold Geometry.parse_number.
    destruct (Text.format_04d i) eqn:E; [|exact H].
    apply (f_equal String.length) in E. unfold Text.format_04d in E. cbv zeta in E.
    rewrite string_app_length in E.
    assert (Hz : forall k, String.length (Text.zeros k) = k)
      by (induction k as [|k IH]; simpl; congruence).
    rewrite Hz in E. simpl in E. lia.
  - apply NoDup_fmap_2_strong; [|apply NoDup_seq].
    intros i j _ _ H.
    apply (f_equal PosixPath.basename) in H. unfold clip_path in H.
    rewrite !basename_join in H by apply clip_name_no_sep.
    by apply clip_name_inj.
Qed.

(** ** The order of a full run *)

Lemma scene_renders_length (w : World) (settings : Settings) (cache : gmap string MediaInfo)
    (td : string) (scenes : list Scene) (picks : list (list string)) :
  length picks = length scenes ->
  forall i, length (scene_renders w settings cache td i scenes picks) = length scenes.
Proof.
  revert picks. induction scenes as [|scene rest IH]; intros [|vids picks] Hlen i;
    try discriminate; [reflexivity|].
  cbn [scene_renders length]. f_equal. apply IH. simpl in Hlen. lia.
Qed.

(** X9. A run over a non-empty pool that plans [n >= 1] scenes and whose
    probes do not raise proceeds in three phases. All probing comes first,
    before any transcoder is started. Then come the [n] scene renders.
    Only after the last of them is the manifest written, with [n] lines,
    and only after the manifest is the final transcoder started: once,
    with the manifest as its only input. Nothing is rendered or probed
    after the manifest is written. *)
Theorem concatenation_waits_for_all_scenes (w : World) (settings : Settings)
    (video_files : list string) (ffprobe_path : string) (g : Random.Rng) (ws : bool) :
  video_files <> [] -> probes_ok w ffprobe_path video_files ->
  0 < scene_duration settings ->
  scene_duration settings <= total_duration settings < 2 ^ 53 ->
  let manifest := PosixPath.join (temp_dir settings) "concat_list.txt" in
  exists probing rendering lines closing,
    trace (run w settings video_files ffprobe_path (initial g ws))
    = probing ++ rendering ++ WriteFile manifest lines :: closing /\
    renders_of probing = [] /\ concats_of probing = [] /\ manifests_of probing = [] /\
    probes_of rendering = [] /\ concats_of rendering = [] /\ manifests_of rendering = [] /\
    Z.of_nat (length (renders_of rendering))
    = total_duration settings / scene_duration settings /\
    length lines = length (renders_of rendering) /\
    probes_of closing = [] /\ renders_of closing = [] /\ manifests_of closing = [] /\
    (exists status, concats_of closing = [(final_command settings manifest, status)]) /\
    inputs_of (final_command settings manifest) = [manifest].
Proof.
  intros Hpool Hok Hsd Htotal manifest.
  destruct (run_planned w settings video_files ffprobe_path g ws Hpool Hok Hsd Htotal)
    as (scenes & g' & probed & picks & cache & _ & Hlen & _ & _ & Hpicks & Ht).
  apply Forall2_length in Hpicks as Hpl. symmetry in Hpl.
  destruct (probe_events_read w ffprobe_path probed) as (_ & Hpr & Hpm & _ & Hpc & _).
  destruct (scene_events_others w settings cache (temp_dir settings) (length scenes) scenes picks 0%nat)
    as (Hsm & _ & Hsc & Hsp).
  pose proof (scene_events_renders w settings cache (temp_dir settings) (length scenes) scenes picks 0%nat)
    as Hsr.
  exists (prelude_events settings ++ map (probe_event w ffprobe_path) probed),
         (scene_events w settings cache (temp_dir settings) (length scenes) 0 scenes picks
          ++ [Progress 95 "Concatenating all scenes..."]),
         (map manifest_line (map (clip_path (temp_dir settings)) (seq 0 (length scenes)))),
         ([LogMessage (nl +:+ "Final concatenation command: "
                       +:+ Text.join " " (final_command settings manifest));
           Concat (final_command settings manifest) (returncode (concat_process w settings))]
          ++ map (fun line => LogMessage (Text.strip line)) (output (concat_process w settings))
          ++ (if returncode (concat_process w settings) =? 0
              then [Progress 100 "Done!"; Finished (Text "Video generation successful!") true]
              else [Finished (Text ("Final concatenation failed with exit code "
                                    +:+ Text.str_Z (returncode (concat_process w settings))
                                    +:+ ".")) false])
          ++ [RmTree (temp_dir settings)]).
  split.
  { rewrite Ht. unfold concat_events. cbv zeta. fold manifest.
    rewrite <- !app_assoc. reflexivity. }
  rewrite renders_of_app, concats_of_app, manifests_of_app, Hpr, Hpc, Hpm.
  split; [reflexivity|]. split; [reflexivity|]. split; [reflexivity|].
  rewrite probes_of_app, concats_of_app, manifests_of_app, renders_of_app, Hsp, Hsc, Hsm, Hsr.
  split; [reflexivity|]. split; [reflexivity|]. split; [reflexivity|].
  cbn [renders_of omap]. rewrite app_nil_r, scene_renders_length by exact Hpl.
  split; [exact Hlen|].
  split; [by rewrite !length_map, length_seq|].
  rewrite !probes_of_app, !renders_of_app, !manifests_of_app, !concats_of_app.
  unfold probes_of, renders_of, manifests_of, concats_of.
  rewrite !omap_map_none by done.
  destruct (returncode (concat_process w settings) =? 0); simpl;
    (split; [reflexivity|]); (split; [reflexivity|]); (split; [reflexivity|]);
    (split; [eexists; reflexivity|]); by case_bool_decide.
Qed.

Lemma concatenation_waits_for_all_scenes_witness :
  exists probing rendering lines closing,
    trace (run fine_world settings_2 ["a.mp4"] "ffprobe" (initial [] false))
    = probing ++ rendering ++ WriteFile "/out/temp_clips/concat_list.txt" lines :: closing /\
    length (renders_of rendering) = 2%nat /\ length lines = 2%nat /\
    renders_of closing = [].
Proof.
  destruct (concatenation_waits_for_all_scenes fine_world settings_2 ["a.mp4"] "ffprobe" [] false
              ltac:(discriminate) (fine_world_probes_ok _ _)
              ltac:(simpl; lia) ltac:(simpl; lia))
    as (probing & rendering & lines & closing & Ht & _ & _ & _ & _ & _ & _ & Hn & Hl & _ & Hr & _).
  exists probing, rendering, lines, closing.
  change (total_duration settings_2 / scene_duration settings_2) with 2 in Hn.
  split; [exact Ht|]. split; [lia|]. split; [lia | exact Hr].
Defined.

(** * The application window *)

(** ** Starting a worker *)

Lemma generate_video_cases (app : App.App) :
  (exists probe,
      App.missing (App.ffmpeg_path app) = false /\
      App.ffprobe_path app = Some probe /\ probe <> EmptyString /\
      App.video_files app <> [] /\
      App.generate_video app
      = (App.set_generate_button false (App.set_progress_bar 0 (App.set_log_box [] app)),
         Some {| App.job_settings := App.build_settings app;
                 App.job_video_files := App.video_files app;
                 App.job_ffprobe_path := probe |})) \/
  (exists dlg,
      (App.missing (App.ffmpeg_path app) = true \/ App.missing (App.ffprobe_path app) = true \/
       App.video_files app = []) /\
      (dlg = App.FfmpegWarning \/
       dlg = App.Critical "Input Error" (Text "Please select a source folder.")) /\
      App.generate_video app = (App.show dlg app, None)).
Proof.
  unfold App.generate_video.
  destruct (App.missing (App.ffmpeg_path app)) eqn:Hmpeg; cbn [orb].
  { right. exists App.FfmpegWarning. split; [by left|]. split; [by left | reflexivity]. }
  destruct (App.missing (App.ffprobe_path app)) eqn:Hprobe.
  { right. exists App.FfmpegWarning. split; [by right; left|]. split; [by left | reflexivity]. }
  destruct (App.video_files app) as [|v vs] eqn:Hfiles.
  { right. eexists. split; [by right; right|]. split; [by right | reflexivity]. }
  destruct (App.ffprobe_path app) as [probe|] eqn:Hpath; [|discriminate].
  left. exists probe. split; [reflexivity|]. split; [reflexivity|].
  split; [intros ->; discriminate|]. split; [discriminate | reflexivity].
Qed.

(** X11. [generate_video] starts a worker only when both programs were
    found and the pool is not empty, and then hands it the pool, the
    prober found and the settings read off the widgets, after clearing
    the log, resetting the progress bar and disabling the button. In
    every other case it shows one dialog and changes nothing else. A
    worker is therefore never started over an empty pool. *)
Theorem generate_video_starts_only_when_ready (app : App.App) :
  match App.generate_video app with
  | (app', Some job) =>
      App.missing (App.ffmpeg_path app) = false /\
      App.ffprobe_path app = Some (App.job_ffprobe_path job) /\
      App.job_ffprobe_path job <> EmptyString /\
      App.job_video_files job = App.video_files app /\
      App.job_video_files job <> [] /\
      App.job_settings job = App.build_settings app /\
      App.generate_button app' = false /\ App.progress_bar app' = 0 /\
      App.log_box app' = [] /\ App.dialogs app' = App.dialogs app
  | (app', None) =>
      (App.missing (App.ffmpeg_path app) = true \/ App.missing (App.ffprobe_path app) = true \/
       App.video_files app = []) /\
      App.generate_button app' = App.generate_button app /\
      App.progress_bar app' = App.progress_bar app /\
      App.log_box app' = App.log_box app /\
      exists dlg, App.dialogs app' = App.dialogs app ++ [dlg]
  end.
Proof.
  destruct (generate_video_cases app)
    as [(probe & Hmpeg & Hpath & Hprobe & Hfiles & ->)|(dlg & Hwhy & _ & ->)].
  - cbn [App.job_ffprobe_path App.job_video_files App.job_settings].
    repeat (split; [done|]). reflexivity.
  - split; [exact Hwhy|]. repeat (split; [reflexivity|]). by exists dlg.
Qed.

Lemma build_settings_in_ranges (app : App.App) :
  App.in_ranges app ->
  1 <= total_duration (App.build_settings app) <= 7200 /\
  1 <= scene_duration (App.build_settings app) <= 60 /\
  0 <= layout_mix (App.build_settings app) <= 100.
Proof. intros (Ht & Hc & Hm & _). done. Qed.

(** X12. With the widgets inside the ranges that [initUI] gives them, the
    worker that [generate_video] starts plans [total // clip] scenes, at
    most 7200, whatever the random source yields. When the total length
    is shorter than one clip that is no scene at all: if no probe raises
    the run ends with the planning failure and nothing is rendered.
    Otherwise, if no probe raises, exactly [total // clip] scenes are
    rendered. *)
Theorem window_settings_decide_the_plan (app app' : App.App) (job : App.Job) :
  App.in_ranges app ->
  App.generate_video app = (app', Some job) ->
  let total := App.total_length_spinbox app in
  let clip := App.clip_length_spinbox app in
  (forall g, exists scenes g',
      _plan_scenes (App.job_settings job) g = Ret scenes g' /\
      Z.of_nat (length scenes) = total / clip /\ 0 <= total / clip <= 7200) /\
  (forall w g ws,
      probes_ok w (App.job_ffprobe_path job) (App.job_video_files job) ->
      let t := trace (run w (App.job_settings job) (App.job_video_files job)
                          (App.job_ffprobe_path job) (initial g ws)) in
      Z.of_nat (length (renders_of t)) = total / clip /\
      (total < clip -> finished_of t = [(plan_failed, false)] /\ progress_of t = [])).
Proof.
  intros Hranges Hgen total clip.
  assert (Hpool : App.job_video_files job <> [] /\
                  App.job_settings job = App.build_settings app).
  { destruct (generate_video_cases app)
      as [(probe & _ & _ & _ & Hfiles & Heq)|(dlg & _ & _ & Heq)];
      rewrite Heq in Hgen; [|discriminate].
    injection Hgen as _ <-. done. }
  destruct Hpool as [Hpool Hsettings].
  destruct (build_settings_in_ranges app Hranges) as (Htotal & Hclip & _).
  rewrite <- Hsettings in Htotal, Hclip.
  assert (Ht : total_duration (App.job_settings job) = total) by by rewrite Hsettings.
  assert (Hc : scene_duration (App.job_settings job) = clip) by by rewrite Hsettings.
  assert (Hdiv : 0 <= total / clip <= 7200).
  { rewrite <- Ht, <- Hc. split; [apply Z.div_pos; lia|].
    apply Z.div_le_upper_bound; lia. }
  split.
  - intros g.
    destruct (plan_length (App.job_settings job) g ltac:(lia) ltac:(lia))
      as (scenes & g' & Hplan & Hlen).
    exists scenes, g'. rewrite Ht, Hc in Hlen. done.
  - intros w g ws Hok t.
    destruct (Z.lt_ge_cases total clip) as [Hshort|Hlong].
    + destruct (plan_length (App.job_settings job) g ltac:(lia) ltac:(lia))
        as (scenes & g' & Hplan & Hlen).
      rewrite Ht, Hc, Z.div_small in Hlen by lia.
      destruct scenes; [|simpl in Hlen; lia].
      destruct (run_plan_empty w (App.job_settings job) (App.job_video_files job)
                  (App.job_ffprobe_path job) (initial g ws) g'
                  (probes_ok_returned _ _ _ Hok _) Hplan) as (probed & _ & Htrace).
      destruct (probe_events_read w (App.job_ffprobe_path job) probed)
        as (Hpp & Hpr & _ & Hpf & _).
      unfold t. rewrite Htrace. cbn [trace initial List.app].
      rewrite !renders_of_app, !finished_of_app, !progress_of_app, Hpp, Hpr, Hpf.
      rewrite Z.div_small by lia. done.
    + destruct (run_planned w (App.job_settings job) (App.job_video_files job)
                  (App.job_ffprobe_path job) g ws Hpool Hok ltac:(lia) ltac:(lia))
        as (scenes & g' & probed & picks & cache & _ & Hlen & _ & _ & Hpicks & Htrace).
      apply Forall2_length in Hpicks. symmetry in Hpicks.
      destruct (probe_events_read w (App.job_ffprobe_path job) probed) as (_ & Hpr & _).
      destruct (concat_events_read (App.job_settings job) (temp_dir (App.job_settings job))
                  (map (clip_path (temp_dir (App.job_settings job))) (seq 0 (length scenes)))
                  (concat_process w (App.job_settings job))) as (_ & Hcr & _).
      split; [|lia].
      unfold t. rewrite Htrace, !renders_of_app, Hpr, Hcr, scene_events_renders.
      change (renders_of (prelude_events (App.job_settings job)))
        with (@nil (list string * Z)).
      cbn [List.app]. rewrite app_nil_r.
      rewrite scene_renders_length by exact Hpicks.
      by rewrite Hlen, Ht, Hc.
Qed.

Lemma window_settings_decide_the_plan_witness :
  finished_of (trace (run fine_world (App.build_settings short_app) ["/videos/a.mp4"]
                        "/usr/bin/ffprobe" (initial [] false)))
  = [(plan_failed, false)].
Proof.
  destruct (window_settings_decide_the_plan short_app
              (App.set_generate_button false
                 (App.set_progress_bar 0 (App.set_log_box [] short_app)))
              {| App.job_settings := App.build_settings short_app;
                 App.job_video_files := ["/videos/a.mp4"];
                 App.job_ffprobe_path := "/usr/bin/ffprobe" |}
              ltac:(unfold App.in_ranges; simpl; lia) eq_refl) as [_ H].
  destruct (H fine_world [] false (fine_world_probes_ok _ _)) as (_ & Hshort).
  destruct (Hshort ltac:(simpl; lia)) as [Hf _]. exact Hf.
Defined.

(** ** From the click to the verdict *)

Lemma deliver_quiet (d : App.Desktop) (evs : list Event) :
  finished_of evs = [] ->
  forall app,
    let app' := fold_left (App.deliver d) evs app in
    App.generate_button app' = App.generate_button app /\
    App.dialogs app' = App.dialogs app /\
    App.opened app' = App.opened app /\
    App.destination_folder app' = App.destination_folder app.
Proof.
  induction evs as [|e evs IH]; intros Hq app; [done|].
  cbn [fold_left]. cbv zeta.
  assert (Hrest : finished_of evs = []) by (destruct e; try discriminate; exact Hq).
  destruct (IH Hrest (App.deliver d app e)) as (Hb & Hd & Ho & Hf).
  rewrite Hb, Hd, Ho, Hf.
  destruct e; try discriminate; try done.
  cbn [App.deliver]. unfold App.update_progress, App.set_progress_bar.
  by destruct (_ && _).
Qed.

Lemma on_finished_effect (d : App.Desktop) (message : Message) (success : bool) (app : App.App) :
  let app' := App.on_finished d message success app in
  App.generate_button app' = true /\
  App.status_label app' = "Finished." /\
  App.progress_bar app' = App.progress_bar app /\
  App.dialogs app'
  = App.dialogs app ++ [if success then App.Information "Success" message
                        else App.Critical "Error" message] /\
  App.opened app'
  = App.opened app ++ (if success then [App.open_call d (App.destination_folder app)] else []).
Proof.
  unfold App.on_finished. destruct success; cbv zeta.
  - destruct (App.open_error d _); cbn; done.
  - cbn. by rewrite app_nil_r.
Qed.

(** X15. A click on an enabled button always gives the window back. If
    no worker is started, one dialog is shown and the button stays
    enabled. If a worker is started, then whatever the world answers the
    worker's only verdict reaches [on_finished], which enables the button
    again, sets the status line to "Finished." and shows exactly one
    dialog; when that dialog is the success dialog, the progress bar
    reads 100 and the destination folder has been handed to the desktop
    once. *)
Theorem every_session_gives_the_window_back (d : App.Desktop) (w : World) (g : Random.Rng)
    (app : App.App) :
  App.generate_button app = true ->
  let app' := App.session d w g app in
  App.generate_button app' = true /\
  (exists dlg, App.dialogs app' = App.dialogs app ++ [dlg] /\
     (snd (App.generate_video app) <> None ->
      App.status_label app' = "Finished." /\
      ((exists message, dlg = App.Information "Success" message) \/
       (exists message, dlg = App.Critical "Error" message)))) /\
  (forall message,
      last (App.dialogs app') = Some (App.Information "Success" message) ->
      App.progress_bar app' = 100 /\
      App.opened app' = App.opened app ++ [App.open_call d (App.destination_folder app)]).
Proof.
  intros Henabled app'. unfold app', App.session.
  destruct (generate_video_cases app)
    as [(probe & _ & _ & _ & _ & Hgen)|(dlg & _ & Hdlg & Hgen)]; rewrite Hgen.
  2:{ split; [exact Henabled|]. split.
      - exists dlg. split; [reflexivity|]. intros H. by destruct H.
      - intros message. cbn [App.dialogs App.show]. rewrite last_snoc. intros [= ->].
        destruct Hdlg; discriminate. }
  set (app1 := App.set_generate_button false (App.set_progress_bar 0 (App.set_log_box [] app))).
  set (job := {| App.job_settings := App.build_settings app;
                 App.job_video_files := App.video_files app;
                 App.job_ffprobe_path := probe |}).
  assert (Hd1 : App.dialogs app1 = App.dialogs app) by reflexivity.
  assert (Ho1 : App.opened app1 = App.opened app) by reflexivity.
  assert (Hf1 : App.destination_folder app1 = App.destination_folder app) by reflexivity.
  clearbody app1 job.
  destruct (run_shape w (App.job_settings job) (App.job_video_files job)
              (App.job_ffprobe_path job) (initial g false))
    as (body & message & success & Ht & Hq & Hverdict).
  rewrite Ht. cbn [trace initial List.app].
  rewrite (app_assoc (prelude_events _)), fold_left_app.
  set (app2 := fold_left (App.deliver d) (prelude_events (App.job_settings job) ++ body) app1).
  destruct (deliver_quiet d (prelude_events (App.job_settings job) ++ body)
              ltac:(by rewrite finished_of_app, Hq) app1) as (Hb2 & Hd2 & Ho2 & Hf2).
  fold app2 in Hb2, Hd2, Ho2, Hf2.
  cbn [fold_left App.deliver].
  destruct (on_finished_effect d message success app2) as (Hb3 & Hs3 & Hp3 & Hd3 & Ho3).
  rewrite Hb3, Hs3, Hd3, Hp3, Ho3, Hd2, Hd1, Ho2, Ho1, Hf2, Hf1.
  split; [reflexivity|]. split.
  - eexists. split; [reflexivity|]. intros _. split; [reflexivity|].
    destruct success; [left | right]; by eexists.
  - intros message'. rewrite last_snoc. intros Hlast.
    destruct success; [|discriminate]. split; [|reflexivity].
    destruct Hverdict as [(_ & _ & Hfalse)|(rc & _ & Hrc & Hdone)]; [discriminate|].
    symmetry in Hrc. apply Z.eqb_eq in Hrc.
    destruct (Hdone Hrc) as [body' Hbody].
    unfold app2. rewrite Hbody, app_assoc, fold_left_app. reflexivity.
Qed.

Lemma every_session_gives_the_window_back_witness :
  App.generate_button (App.session linux_desktop fine_world [] sample_app) = true /\
  App.progress_bar (App.session linux_desktop fine_world [] sample_app) = 100.
Proof.
  destruct (every_session_gives_the_window_back linux_desktop fine_world [] sample_app eq_refl)
    as (Hb & _ & Hdone).
  split; [exact Hb|].
  apply (Hdone (Text "Video generation successful!")).
  vm_compute. reflexivity.
Defined.

(** ** Scanning the source folder *)

Lemma string_app_nil_r (a : string) : a +:+ EmptyString = a.
Proof.
  induction a as [|c a IH]; [reflexivity|].
  change (String c (a +:+ EmptyString) = String c a). by rewrite IH.
Qed.









Lemma join_prefix (r f : string) :
  PosixPath.has_sep f = false ->
  PosixPath.join r f = PosixPath.join r EmptyString +:+ f.
Proof.
  intros Hf. unfold PosixPath.join. rewrite (starts_with_sep_no_sep f Hf).
  cbn [PosixPath.starts_with_sep].
  destruct (bool_decide (r = EmptyString) || PosixPath.ends_with_sep r).
  - by rewrite string_app_nil_r.
  - by rewrite string_app_nil_r, string_app_assoc.
Qed.

Lemma join_inj (r r' f f' : string) :
  PosixPath.has_sep f = false -> PosixPath.has_sep f' = false ->
  PosixPath.join r f = PosixPath.join r' f' ->
  PosixPath.join r EmptyString = PosixPath.join r' EmptyString /\ f = f'.
Proof.
  intros Hf Hf' H.
  assert (f = f') as <-.
  { apply (f_equal PosixPath.basename) in H. by rewrite !basename_join in H. }
  split; [|reflexivity].
  rewrite (join_prefix r f), (join_prefix r' f) in H by done.
  by apply string_app_inv_tail in H.
Qed.

Lemma elem_of_scan (tree : list (string * list string)) (p : string) :
  p ∈ App.scan tree
  <-> exists r fs f, (r, fs) ∈ tree /\ f ∈ fs /\ App.is_video f = true /\ p = PosixPath.join r f.
Proof.
  unfold App.scan. rewrite list_elem_of_In, in_flat_map. split.
  - intros ([r fs] & Hin & Hp). apply list_elem_of_In in Hin.
    apply list_elem_of_In, list_elem_of_fmap in Hp as (f & -> & Hf).
    apply list_elem_of_filter in Hf as [Hvideo Hf]. by exists r, fs, f.
  - intros (r & fs & f & Hin & Hf & Hvideo & ->). exists (r, fs).
    split; [by apply list_elem_of_In|].
    apply list_elem_of_In, list_elem_of_fmap. exists f. split; [reflexivity|].
    by apply list_elem_of_filter.
Qed.

(** The pool that a scan builds lists each video file once, provided the
    tree lists each directory once and, in each directory, each file name
    once. *)
Lemma scan_NoDup (tree : list (string * list string)) :
  NoDup (map (fun entry => PosixPath.join (fst entry) EmptyString) tree) ->
  Forall (fun entry => NoDup (snd entry) /\
                       Forall (fun f => PosixPath.has_sep f = false) (snd entry)) tree ->
  NoDup (App.scan tree).
Proof.
  induction tree as [|[r fs] tree IH]; intros Hroots Hfiles; [constructor|].
  apply NoDup_cons in Hroots as [Hr Hroots]. apply Forall_cons in Hfiles as [[Hnd Hsep] Hfiles].
  cbn [fst snd] in *.
  change (App.scan ((r, fs) :: tree))
    with (map (PosixPath.join r) (filter (fun f => App.is_video f = true) fs) ++ App.scan tree).
  rewrite Forall_forall in Hsep.
  apply NoDup_app. split; [|split; [|by apply IH]].
  - apply NoDup_fmap_2_strong; [|by apply NoDup_filter].
    intros f f' Hf Hf' H.
    apply list_elem_of_filter in Hf as [_ Hf]. apply list_elem_of_filter in Hf' as [_ Hf'].
    by destruct (join_inj r r f f' (Hsep f Hf) (Hsep f' Hf') H).
  - intros p Hp Hp'.
    apply list_elem_of_fmap in Hp as (f & -> & Hf). apply list_elem_of_filter in Hf as [_ Hf].
    apply elem_of_scan in Hp' as (r' & fs' & f' & Hin & Hf' & _ & H).
    rewrite Forall_forall in Hfiles. destruct (Hfiles _ Hin) as [_ Hsep'].
    rewrite Forall_forall in Hsep'. cbn [snd] in Hsep'.
    destruct (join_inj r r' f f' (Hsep f Hf) (Hsep' f' Hf') H) as [Hrr _].
    apply Hr. rewrite Hrr.
    apply list_elem_of_fmap. by exists (r', fs').
Qed.

(** X13. After a source folder was chosen, the pool holds the video
    files of the tree below it and nothing else: every entry is a file of
    some directory of the tree, under its own name, and its name passes
    the extension test. If the tree lists each directory once and in each
    directory each name once, names being free of separators, the pool
    lists no path twice. The label shows the size of the pool. A
    cancelled dialog changes nothing. *)
Theorem selected_pool_lists_each_video_once (d : App.Desktop) (folder : string) (app : App.App) :
  let tree := App.walk d folder in
  let app' := App.select_source_folder d folder app in
  NoDup (map (fun entry => PosixPath.join (fst entry) EmptyString) tree) ->
  Forall (fun entry => NoDup (snd entry) /\
                       Forall (fun f => PosixPath.has_sep f = false) (snd entry)) tree ->
  (folder = EmptyString -> app' = app) /\
  (folder <> EmptyString ->
   NoDup (App.video_files app') /\
   (forall p, p ∈ App.video_files app' ->
      App.is_video (PosixPath.basename p) = true /\
      exists r fs, (r, fs) ∈ tree /\ PosixPath.basename p ∈ fs /\
                   p = PosixPath.join r (PosixPath.basename p)) /\
   App.video_folder_label app'
   = Text.str_nat (length (App.video_files app')) +:+ " videos found in "
     +:+ PosixPath.basename folder).
Proof.
  intros tree app' Hroots Hfiles. unfold app', App.select_source_folder. split.
  - intros ->. reflexivity.
  - intros Hfolder. rewrite bool_decide_eq_false_2 by done.
    cbn [App.video_files App.video_folder_label App.set_sources]. fold tree.
    split; [by apply scan_NoDup|]. split; [|reflexivity].
    intros p (r & fs & f & Hin & Hf & Hvideo & ->)%elem_of_scan.
    rewrite Forall_forall in Hfiles. destruct (Hfiles _ Hin) as [_ Hsep].
    rewrite Forall_forall in Hsep. cbn [snd] in Hsep.
    rewrite basename_join by by apply Hsep.
    split; [exact Hvideo|]. by exists r, fs.
Qed.

Lemma selected_pool_lists_each_video_once_witness :
  NoDup (App.video_files sample_app) /\
  App.video_folder_label sample_app = "3 videos found in videos".
Proof.
  destruct (selected_pool_lists_each_video_once linux_desktop "/videos" (App.init linux_desktop))
    as [_ H].
  - vm_compute. repeat (constructor; [rewrite list_elem_of_In; simpl; intuition discriminate|]).
    constructor.
  - vm_compute.
    repeat (constructor;
            [split; [repeat (constructor;
                             [rewrite list_elem_of_In; simpl; intuition discriminate|]);
                     constructor
                    | repeat (constructor; [reflexivity|]); constructor]|]).
    constructor.
  - destruct (H ltac:(discriminate)) as (Hnd & _ & Hlabel).
    split; [exact Hnd | exact Hlabel].
Defined.
